(** * Network modules of [models/fields.py]

    A shallow embedding of the four [nn.Module] classes of
    [models/fields.py]: [SDFNetwork], [RenderingNetwork], [NeRF] and
    [SingleVarianceNetwork].

    Conventions of the embedding.
    - A 2-D tensor is its column count together with its list of rows.
      Tensor entries are real numbers: rounding of [float32] is not
      modelled, every arithmetic operation is the exact one.
    - Python exceptions are the constructors of [exn]; a method that can
      raise returns a [result].
    - Integers that the code compares or subtracts ([n_layers], the skip
      indices, [multires]) are [Z]; tensor dimensions are [nat].
    - [get_embedder] lives in [models/embedder.py]; it is taken as a
      parameter wherever a constructor calls it.
    - [__init__] is written with explicit state passing over the object
      under construction. *)

From Stdlib Require Import String Bool Arith ZArith Reals Lra Lia List.
From Stdlib Require Import FunctionalExtensionality.
Import ListNotations.

Set Implicit Arguments.

(** ** Exceptions and results *)

Inductive skip_msg : Type :=
| MustBeWithin        (* "skip_in indices ... must be within [0, n_layers-1]" *)
| MustBeInterior.     (* "skip_in ... must contain valid indices less than n_layers-1" *)

Inductive exn : Type :=
| ValueError (m : skip_msg)
| RuntimeError        (* torch shape / broadcasting failures *)
| TypeError           (* an operator applied to [None] *)
| AttributeError      (* a missing attribute of [self] *)
| AssertionError.

Inductive result (A : Type) : Type :=
| Ok (a : A)
| Raise (e : exn).

Arguments Ok {A} a.
Arguments Raise {A} e.

Definition bind {A B : Type} (m : result A) (k : A -> result B) : result B :=
  match m with
  | Ok a => k a
  | Raise e => Raise e
  end.

Notation "x <- m ;; k" := (bind m (fun x => k))
  (at level 61, m at next level, right associativity).

Definition is_ok {A : Type} (m : result A) : bool :=
  match m with Ok _ => true | Raise _ => false end.

(** ** Tensors *)

Module Torch.

Record tensor : Type := mkT { ncols : nat; trows : list (list R) }.

Definition nrows (t : tensor) : nat := length (trows t).

Definition shape (t : tensor) : nat * nat := (nrows t, ncols t).

(** Every row of a tensor has [ncols] entries. *)
Definition wf_tensor (t : tensor) : Prop :=
  Forall (fun r => length r = ncols t) (trows t).

(** What [torch.tensor(scale)] can be: a 0-dimensional tensor (a Python
    number was given) or a 1-dimensional one (a list was given). *)
Inductive tensor01 : Type :=
| Scalar0 (r : R)
| Vec1 (v : list R).

Definition tmap (f : R -> R) (t : tensor) : tensor :=
  mkT (ncols t) (map (map f) (trows t)).

Fixpoint zip_with (op : R -> R -> R) (a b : list R) : list R :=
  match a, b with
  | x :: a', y :: b' => op x y :: zip_with op a' b'
  | _, _ => []
  end.

(** [t op s] for a 2-D tensor [t] of shape [B, w] and a 0-D or 1-D tensor
    [s], with torch's broadcasting: a 1-D tensor of length [n] is aligned
    with the last dimension, sizes must agree or one of them be 1. *)
Definition broadcast (op : R -> R -> R) (t : tensor) (s : tensor01)
  : result tensor :=
  match s with
  | Scalar0 c => Ok (tmap (fun a => op a c) t)
  | Vec1 v =>
      if Nat.eqb (ncols t) (length v) then
        Ok (mkT (ncols t) (map (fun r => zip_with op r v) (trows t)))
      else if Nat.eqb (length v) 1 then
        Ok (tmap (fun a => op a (hd 0%R v)) t)
      else if Nat.eqb (ncols t) 1 then
        Ok (mkT (length v)
                (map (fun r => map (fun c => op (hd 0%R r) c) v) (trows t)))
      else Raise RuntimeError
  end.

Definition tmul := broadcast Rmult.
Definition tdiv := broadcast Rdiv.

Fixpoint zip_app (a b : list (list R)) : list (list R) :=
  match a, b with
  | x :: a', y :: b' => (x ++ y) :: zip_app a' b'
  | _, _ => []
  end.

(** [torch.cat([a, b], dim=-1)] on 2-D tensors. *)
Definition cat (a b : tensor) : result tensor :=
  if Nat.eqb (nrows a) (nrows b) then
    Ok (mkT (ncols a + ncols b) (zip_app (trows a) (trows b)))
  else Raise RuntimeError.

Fixpoint cat_list (t : tensor) (ts : list tensor) : result tensor :=
  match ts with
  | [] => Ok t
  | u :: ts' => x <- cat t u ;; cat_list x ts'
  end.

Definition zeros (n m : nat) : tensor := mkT m (repeat (repeat 0%R m) n).
Definition ones (n m : nat) : tensor := mkT m (repeat (repeat 1%R m) n).

(** [x[:, :1]] and [x[:, 1:]]. *)
Definition cols_to1 (t : tensor) : tensor :=
  mkT (Nat.min 1 (ncols t)) (map (firstn 1) (trows t)).
Definition cols_from1 (t : tensor) : tensor :=
  mkT (ncols t - 1) (map (skipn 1) (trows t)).

(** [t.unsqueeze(1)]: shape [B, w] becomes [B, 1, w]. *)
Definition unsqueeze1 (t : tensor) : list tensor :=
  map (fun r => mkT (ncols t) [r]) (trows t).

(** Activations. [nn.Softplus(beta)] switches to the identity above its
    threshold of 20. *)
Definition softplus (beta x : R) : R :=
  if Rlt_dec 20 (beta * x) then x else (ln (1 + exp (beta * x)) / beta)%R.
Definition relu (x : R) : R := Rmax 0 x.
Definition sigmoid (x : R) : R := (1 / (1 + exp (- x)))%R.

(** *** Linear layers *)

(** [nn.Linear], possibly wrapped by [nn.utils.weight_norm]: then
    [weight] holds the direction [weight_v] and [weight_g] the magnitude
    of every output unit. *)
Record Linear : Type := mkLinear {
  in_features : nat;
  out_features : nat;
  weight : list (list R);
  bias : list R;
  weight_g : option (list R)
}.

Definition dot (a b : list R) : R :=
  fold_right Rplus 0%R (zip_with Rmult a b).

Definition norm2 (v : list R) : R := sqrt (dot v v).

(** The weight [F.linear] receives: [v * (g / ||v||)] row by row under
    weight normalisation, the stored weight otherwise. *)
Definition effective_weight (l : Linear) : list (list R) :=
  match weight_g l with
  | None => weight l
  | Some g =>
      map (fun gv => map (fun a => (a * (fst gv / norm2 (snd gv)))%R) (snd gv))
          (combine g (weight l))
  end.

Definition affine_row (w : list (list R)) (b : list R) (r : list R) : list R :=
  zip_with Rplus (map (fun wi => dot r wi) w) b.

Definition Linear_forward (l : Linear) (x : tensor) : result tensor :=
  if Nat.eqb (ncols x) (in_features l) then
    Ok (mkT (out_features l)
            (map (affine_row (effective_weight l) (bias l)) (trows x)))
  else Raise RuntimeError.

(** Calling a layer on a value that may be [None]. *)
Definition Linear_call (l : Linear) (x : option tensor) : result tensor :=
  match x with
  | Some t => Linear_forward l t
  | None => Raise TypeError
  end.

(** The values held by the parameter tensors of a stack of layers:
    weight entry, bias entry and weight-norm magnitude of layer [l]. *)
Record params : Type := mkParams {
  p_weight : nat -> nat -> nat -> R;
  p_bias : nat -> nat -> R;
  p_g : nat -> nat -> R
}.

Definition tabulate {A : Type} (f : nat -> A) (n : nat) : list A :=
  map f (seq 0 n).

(** A layer of the given shape holding the values [th] assigns to layer
    number [l]. *)
Definition Linear_of (th : params) (wn : bool) (l i o : nat) : Linear :=
  mkLinear i o
    (tabulate (fun r => tabulate (fun c => p_weight th l r c) i) o)
    (tabulate (fun r => p_bias th l r) o)
    (if wn then Some (tabulate (fun r => p_g th l r) o) else None).

(** The parameter tensors of a layer have the sizes its shape announces. *)
Definition wf_linear (l : Linear) : Prop :=
  length (weight l) = out_features l
  /\ length (bias l) = out_features l
  /\ match weight_g l with
     | Some g => length g = out_features l
     | None => True
     end.

(** What [get_embedder(multires, input_dims)] of [models/embedder.py]
    returns: the embedding function and its output width. The second
    argument is [None] when the caller leaves [input_dims] to its
    default. *)
Record Embedder : Type := mkEmbedder {
  embed : tensor -> tensor;
  input_ch : nat
}.

Definition get_embedder_t : Type := Z -> option nat -> Embedder.

End Torch.

(** ** SDFNetwork *)

Module SDF.
Import Torch.

Record Config : Type := mkConfig {
  d_in : nat;
  d_out : nat;
  d_hidden : nat;
  n_layers : Z;
  skip_in : list Z;
  multires : Z;
  bias : R;
  scale : tensor01;
  geometric_init : bool;
  weight_norm : bool;
  inside_outside : bool;
  feature_dim : nat
}.

(** [max(l, default=d)] and [min(l, default=d)]. *)
Definition py_max (l : list Z) (d : Z) : Z :=
  match l with
  | [] => d
  | x :: t => fold_left Z.max t x
  end.

Definition py_min (l : list Z) (d : Z) : Z :=
  match l with
  | [] => d
  | x :: t => fold_left Z.min t x
  end.

(** [l in skip_in] for a layer index [l]. *)
Definition is_skip (skip : list Z) (l : nat) : bool :=
  existsb (Z.eqb (Z.of_nat l)) skip.

(** The two guards at the head of [__init__], in order. *)
Definition check_skip_in (skip : list Z) (n : Z) : option exn :=
  if (py_max skip (-1) >=? n)%Z || (py_min skip n <? 0)%Z then
    Some (ValueError MustBeWithin)
  else if match skip with [] => true | _ => false end
          || (py_max skip 0 >=? n - 1)%Z then
    Some (ValueError MustBeInterior)
  else None.

(** *** Initialisation, symbolically

    What [torch.nn.init] left in an entry of a parameter tensor: the
    default initialisation of [nn.Linear], a constant, or a draw from a
    normal distribution. *)
Inductive init_entry : Type :=
| Default
| Constant (c : R)
| Normal (mean std : R).

Record LinearInit : Type := mkLinearInit {
  in_dim : nat;
  out_dim : nat;
  w_init : list (list init_entry);
  b_init : list init_entry;
  wn : bool
}.

Definition nn_Linear (i o : nat) : LinearInit :=
  mkLinearInit i o (repeat (repeat Default i) o) (repeat Default o) false.

(** Overwrite the columns selected by [sel] in every row. *)
Definition fill_cols (sel : nat -> bool) (e : init_entry)
  (w : list (list init_entry)) : list (list init_entry) :=
  map (fun row =>
         map (fun je => if sel (fst je) then e else snd je)
             (combine (seq 0 (length row)) row)) w.

Definition with_weight (lin : LinearInit) (w : list (list init_entry)) :=
  mkLinearInit (in_dim lin) (out_dim lin) w (b_init lin) (wn lin).

(** [constant_(lin.bias, c)]. *)
Definition constant_bias (c : R) (lin : LinearInit) : LinearInit :=
  mkLinearInit (in_dim lin) (out_dim lin) (w_init lin)
               (map (fun _ => Constant c) (b_init lin)) (wn lin).

(** [constant_(lin.weight[:, s], c)] and [normal_(lin.weight[:, s], m, sd)]
    for a column slice [s] given as a predicate on column indices. *)
Definition constant_weight (sel : nat -> bool) (c : R) (lin : LinearInit) :=
  with_weight lin (fill_cols sel (Constant c) (w_init lin)).
Definition normal_weight (sel : nat -> bool) (m sd : R) (lin : LinearInit) :=
  with_weight lin (fill_cols sel (Normal m sd) (w_init lin)).

(** [nn.utils.weight_norm(lin)]: the initialised weight becomes the
    direction [weight_v], the magnitude [weight_g] starts as its row
    norms. *)
Definition apply_weight_norm (lin : LinearInit) : LinearInit :=
  mkLinearInit (in_dim lin) (out_dim lin) (w_init lin) (b_init lin) true.

(** The column slices the constructor uses: [:], [3:], [:3] and [-k:]
    (for [k > 0]) on a tensor with [n] columns. *)
Definition all_cols (j : nat) : bool := true.
Definition from3 (j : nat) : bool := 3 <=? j.
Definition upto3 (j : nat) : bool := j <? 3.
Definition last_cols (n k : nat) (j : nat) : bool := n - k <=? j.

Definition make_dims (E : nat) (cfg : Config) : list nat :=
  [E + feature_dim cfg]
    ++ repeat (d_hidden cfg) (Z.to_nat (n_layers cfg))
    ++ [d_out cfg].

(** The body of the loop [for l in range(self.num_layers - 1)]. *)
Definition build_layer (cfg : Config) (E : nat) (dims : list nat) (l : nat)
  : LinearInit :=
  let num_layers := length dims in
  let in_dim := if is_skip (skip_in cfg) l then nth l dims 0 + E
                else nth l dims 0 in
  let out_dim := nth (l + 1) dims 0 in
  let std := (sqrt 2 / sqrt (INR out_dim))%R in
  let lin := nn_Linear in_dim out_dim in
  let lin :=
    if geometric_init cfg then
      if l =? num_layers - 2 then
        if negb (inside_outside cfg) then
          constant_bias (- bias cfg)
            (normal_weight all_cols (sqrt PI / sqrt (INR in_dim)) 0.0001 lin)
        else
          constant_bias (bias cfg)
            (normal_weight all_cols (- sqrt PI / sqrt (INR in_dim)) 0.0001 lin)
      else if (0 <? multires cfg)%Z && (l =? 0) then
        normal_weight upto3 0 std
          (constant_weight from3 0 (constant_bias 0 lin))
      else if (0 <? multires cfg)%Z && is_skip (skip_in cfg) l then
        let lin := normal_weight all_cols 0 std (constant_bias 0 lin) in
        if 3 <? E then constant_weight (last_cols in_dim (E - 3)) 0 lin
        else lin
      else
        normal_weight all_cols 0 std (constant_bias 0 lin)
    else lin in
  if weight_norm cfg then apply_weight_norm lin else lin.

(** The object under construction: the attributes [__init__] has
    assigned so far. *)
Record Attrs : Type := mkAttrs {
  a_skip_in : list Z;
  a_feature_dim : nat;
  a_embed_fn_fine : tensor -> tensor;
  a_embedded_input_dim : nat;
  a_num_layers : nat;
  a_scale : tensor01
}.

Record Self : Type := mkSelf {
  s_attrs : option Attrs;
  s_layers : list LinearInit;
  s_fusion : option (LinearInit * LinearInit * LinearInit)
}.

Definition fresh : Self := mkSelf None [] None.

Definition the_embedder (get_embedder : get_embedder_t) (cfg : Config)
  : Embedder :=
  if (0 <? multires cfg)%Z then get_embedder (multires cfg) (Some (d_in cfg))
  else mkEmbedder (fun x => x) (d_in cfg).

(** [__init__]: the state of [self] when it returns or raises. *)
Definition init_steps (get_embedder : get_embedder_t) (cfg : Config)
  (self : Self) : Self * option exn :=
  match check_skip_in (skip_in cfg) (n_layers cfg) with
  | Some e => (self, Some e)
  | None =>
      let emb := the_embedder get_embedder cfg in
      let E := input_ch emb in
      let dims := make_dims E cfg in
      let attrs := mkAttrs (skip_in cfg) (feature_dim cfg) (embed emb) E
                           (length dims) (scale cfg) in
      let self := mkSelf (Some attrs) (s_layers self) (s_fusion self) in
      let self :=
        fold_left
          (fun s l => mkSelf (s_attrs s)
                             (s_layers s ++ [build_layer cfg E dims l])
                             (s_fusion s))
          (seq 0 (length dims - 1)) self in
      let feature_input_dim := 768 in
      let self :=
        mkSelf (s_attrs self) (s_layers self)
               (Some (nn_Linear E feature_input_dim,
                      nn_Linear feature_input_dim feature_input_dim,
                      nn_Linear feature_input_dim (feature_dim cfg))) in
      (self, None)
  end.

(** A constructed network, before parameter values are looked at. *)
Record SDFInit : Type := mkSDFInit {
  i_attrs : Attrs;
  i_layers : list LinearInit;
  i_fusion : LinearInit * LinearInit * LinearInit
}.

(** [SDFNetwork(...)]: the caller receives the object only when
    [__init__] returns. *)
Definition SDFNetwork_init (get_embedder : get_embedder_t) (cfg : Config)
  : result SDFInit :=
  match init_steps get_embedder cfg fresh with
  | (_, Some e) => Raise e
  | (mkSelf (Some a) ls (Some f), None) => Ok (mkSDFInit a ls f)
  | (_, None) => Raise AttributeError
  end.

(** The skip sets the two guards let through. *)
Definition valid_skip (skip : list Z) (n : Z) : Prop :=
  skip <> [] /\ Forall (fun i => (0 <= i <= n - 2)%Z) skip.

(** The attributes and layers of a successfully constructed network. *)
Definition built_attrs (ge : get_embedder_t) (cfg : Config) : Attrs :=
  let emb := the_embedder ge cfg in
  mkAttrs (skip_in cfg) (feature_dim cfg) (embed emb) (input_ch emb)
          (length (make_dims (input_ch emb) cfg)) (scale cfg).

Definition built_layers (ge : get_embedder_t) (cfg : Config) : list LinearInit :=
  let E := input_ch (the_embedder ge cfg) in
  map (build_layer cfg E (make_dims E cfg))
      (seq 0 (length (make_dims E cfg) - 1)).

Definition built (ge : get_embedder_t) (cfg : Config) : SDFInit :=
  let E := input_ch (the_embedder ge cfg) in
  mkSDFInit (built_attrs ge cfg) (built_layers ge cfg)
            (nn_Linear E 768, nn_Linear 768 768, nn_Linear 768 (feature_dim cfg)).

(** Entry [(r, c)] of the weight and entry [r] of the bias of a layer. *)
Definition entry_of (w : list (list init_entry)) (r c : nat)
  : option init_entry :=
  match nth_error w r with
  | Some row => nth_error row c
  | None => None
  end.

Definition weight_entry (lin : LinearInit) (r c : nat) : option init_entry :=
  entry_of (w_init lin) r c.

Definition bias_entry (lin : LinearInit) (r : nat) : option init_entry :=
  nth_error (b_init lin) r.

(** *** The network with its parameter values *)

Record SDFNetwork : Type := mkSDFNetwork {
  self_skip_in : list Z;
  self_feature_dim : nat;
  self_num_layers : nat;
  self_scale : tensor01;
  embed_fn_fine : tensor -> tensor;
  layers : list Linear;
  linear_pe : Linear;
  linear_k : Linear;
  linear_fused : Linear
}.

Fixpoint load_layers (th : params) (l : nat) (ls : list LinearInit)
  : list Linear :=
  match ls with
  | [] => []
  | li :: ls' =>
      Linear_of th (wn li) l (in_dim li) (out_dim li)
        :: load_layers th (S l) ls'
  end.

(** The constructed network when its parameter tensors hold the values
    [th] (layer [l] of the stack is number [l], the three fusion layers
    follow the stack). *)
Definition load (th : params) (ini : SDFInit) : SDFNetwork :=
  let a := i_attrs ini in
  let n := length (i_layers ini) in
  let mk (k : nat) (li : LinearInit) :=
    Linear_of th (wn li) (n + k) (in_dim li) (out_dim li) in
  mkSDFNetwork (a_skip_in a) (a_feature_dim a) (a_num_layers a) (a_scale a)
    (a_embed_fn_fine a)
    (load_layers th 0 (i_layers ini))
    (mk 0 (fst (fst (i_fusion ini))))
    (mk 1 (snd (fst (i_fusion ini))))
    (mk 2 (snd (i_fusion ini))).

(** The loop [for l, layer in enumerate(self.layers)] of [forward], from
    index [l] on. *)
Fixpoint run_layers (net : SDFNetwork) (inputs : tensor) (l : nat)
  (ls : list Linear) (x : tensor) : result tensor :=
  match ls with
  | [] => Ok x
  | layer :: ls' =>
      x <- (if is_skip (self_skip_in net) l then
              c <- cat x (embed_fn_fine net inputs) ;;
              Ok (tmap (fun a => (a / sqrt 2)%R) c)
            else Ok x) ;;
      x <- Linear_forward layer x ;;
      run_layers net inputs (S l) ls'
        (if l <? self_num_layers net - 2 then tmap (softplus 100) x else x)
  end.

Definition forward (net : SDFNetwork) (inputs : tensor)
  (features : option tensor) : result tensor :=
  inputs <- tmul inputs (self_scale net) ;;
  let x := embed_fn_fine net inputs in
  x <- (match features with
        | Some f => cat x f
        | None => cat x (zeros (nrows inputs) (self_feature_dim net))
        end) ;;
  x <- run_layers net inputs 0 (layers net) x ;;
  d <- tdiv (cols_to1 x) (self_scale net) ;;
  cat d (cols_from1 x).

Definition sdf (net : SDFNetwork) (x : tensor) (features : option tensor)
  : result tensor :=
  y <- forward net x features ;; Ok (cols_to1 y).

(** [torch.autograd.grad(outputs=f(x), inputs=x, grad_outputs=ones)]:
    the differentiation machinery is the numeric substrate's, it is a
    parameter here and sees only the function that was computed. *)
Definition autograd_t : Type := (tensor -> result tensor) -> tensor -> result tensor.

Definition gradient (autograd : autograd_t) (net : SDFNetwork) (x : tensor)
  (features : option tensor) : result (list tensor) :=
  gradients <- autograd (fun x' => sdf net x' features) x ;;
  Ok (unsqueeze1 gradients).

(** Replacing the parameter tensors of the three fusion layers. *)
Definition with_fusion (net : SDFNetwork) (pe k fused : Linear) : SDFNetwork :=
  mkSDFNetwork (self_skip_in net) (self_feature_dim net) (self_num_layers net)
    (self_scale net) (embed_fn_fine net) (layers net) pe k fused.

(** Replacing the Scale Vector. *)
Definition with_scale (net : SDFNetwork) (s : tensor01) : SDFNetwork :=
  mkSDFNetwork (self_skip_in net) (self_feature_dim net) (self_num_layers net)
    s (embed_fn_fine net) (layers net)
    (linear_pe net) (linear_k net) (linear_fused net).

(** [k * scale] on the Scale Vector. *)
Definition scale_by (k : R) (s : tensor01) : tensor01 :=
  match s with
  | Scalar0 c => Scalar0 (k * c)
  | Vec1 v => Vec1 (map (fun c => (k * c)%R) v)
  end.

(** Two networks that differ at most in the three fusion layers. *)
Definition agree_except_fusion (n1 n2 : SDFNetwork) : Prop :=
  self_skip_in n1 = self_skip_in n2
  /\ self_feature_dim n1 = self_feature_dim n2
  /\ self_num_layers n1 = self_num_layers n2
  /\ self_scale n1 = self_scale n2
  /\ embed_fn_fine n1 = embed_fn_fine n2
  /\ layers n1 = layers n2.

(** The widths of a stack chain: a tensor of width [w] entering layer
    [l] is widened by [E] at a skip layer, must match the layer's input
    width, and the stack ends at width [wout]. *)
Fixpoint chain (skip : list Z) (E : nat) (l w : nat) (ls : list LinearInit)
  (wout : nat) : Prop :=
  match ls with
  | [] => w = wout
  | li :: ls' =>
      in_dim li = (if is_skip skip l then w + E else w)
      /\ chain skip E (S l) (out_dim li) ls' wout
  end.

(** The Scale Vector has at least one component. *)
Definition scale_nonempty (s : tensor01) : Prop :=
  match s with
  | Scalar0 _ => True
  | Vec1 v => v <> []
  end.

(** The Scale Vector can multiply a batch of [d]-wide points without
    changing its shape. *)
Definition scale_fits (s : tensor01) (d : nat) : Prop :=
  match s with
  | Scalar0 _ => True
  | Vec1 v => length v = d \/ length v = 1
  end.

(** An optional feature tensor fits a batch of [B] points. *)
Definition features_fit (features : option tensor) (B F : nat) : Prop :=
  match features with
  | None => True
  | Some f => wf_tensor f /\ nrows f = B /\ ncols f = F
  end.

(** The embedder maps a batch of [d]-wide rows to a batch of as many
    [E]-wide rows. *)
Definition embeds (f : tensor -> tensor) (d E : nat) : Prop :=
  forall t, wf_tensor t -> ncols t = d ->
    wf_tensor (f t) /\ ncols (f t) = E /\ nrows (f t) = nrows t.

End SDF.

(** ** RenderingNetwork *)

Module Rendering.
Import Torch.

Record Config : Type := mkConfig {
  d_feature : nat;
  mode : string;
  d_in : nat;
  d_out : nat;
  d_hidden : nat;
  n_layers : Z;
  weight_norm : bool;
  multires_view : Z;
  squeeze_out : bool;
  image_feature_dim : nat
}.

(** [dims] as [__init__] leaves it; the first entry is a Python integer
    and can be negative when the embedder reports fewer than 3 channels. *)
Definition make_dims (get_embedder : get_embedder_t) (cfg : Config) : list Z :=
  let d0 := Z.of_nat (d_in cfg + d_feature cfg + image_feature_dim cfg) in
  let rest := repeat (Z.of_nat (d_hidden cfg)) (Z.to_nat (n_layers cfg))
                ++ [Z.of_nat (d_out cfg)] in
  if (0 <? multires_view cfg)%Z then
    (d0 + (Z.of_nat (input_ch (get_embedder (multires_view cfg) None)) - 3))%Z
      :: rest
  else d0 :: rest.

Record RenderingNetwork : Type := mkRenderingNetwork {
  self_mode : string;
  self_squeeze_out : bool;
  embedview_fn : option (tensor -> tensor);
  num_layers : nat;
  lin : list Linear          (* the attributes lin0, lin1, ... *)
}.

(** [nn.Linear(i, o)] with Python integers: negative sizes are refused. *)
Definition nn_Linear (th : params) (wn : bool) (l : nat) (i o : Z)
  : result Linear :=
  if (i <? 0)%Z || (o <? 0)%Z then Raise RuntimeError
  else Ok (Linear_of th wn l (Z.to_nat i) (Z.to_nat o)).

Fixpoint build_lins (th : params) (wn : bool) (l : nat) (dims : list Z)
  : result (list Linear) :=
  match dims with
  | i :: ((o :: _) as dims') =>
      layer <- nn_Linear th wn l i o ;;
      rest <- build_lins th wn (S l) dims' ;;
      Ok (layer :: rest)
  | _ => Ok []
  end.

(** The constructed network when its parameter tensors hold [th]. *)
Definition RenderingNetwork_init (get_embedder : get_embedder_t)
  (cfg : Config) (th : params) : result RenderingNetwork :=
  let dims := make_dims get_embedder cfg in
  lins <- build_lins th (weight_norm cfg) 0 dims ;;
  Ok (mkRenderingNetwork (mode cfg) (squeeze_out cfg)
        (if (0 <? multires_view cfg)%Z
         then Some (embed (get_embedder (multires_view cfg) None))
         else None)
        (length dims) lins).

(** The width of the first layer's input. *)
Definition first_width (net : RenderingNetwork) : option nat :=
  match lin net with
  | l0 :: _ => Some (in_features l0)
  | [] => None
  end.

(** The loop [for l in range(0, self.num_layers - 1)] of [forward];
    [x] is [None] until the first layer has been applied. *)
Fixpoint run_lins (net : RenderingNetwork) (ls : list nat) (x : option tensor)
  : result (option tensor) :=
  match ls with
  | [] => Ok x
  | l :: ls' =>
      match nth_error (lin net) l with
      | None => Raise AttributeError
      | Some layer =>
          y <- Linear_call layer x ;;
          run_lins net ls'
            (Some (if l <? num_layers net - 2 then tmap relu y else y))
      end
  end.

(** The tensors the mode selects for concatenation, in order; [None]
    when no branch of the [if]/[elif] chain matches. *)
Definition select (m : string)
  (points normals view_dirs feature_vectors features : tensor)
  : option (tensor * list tensor) :=
  if String.eqb m "idr" then
    Some (points, [view_dirs; normals; feature_vectors; features])
  else if String.eqb m "no_view_dir" then
    Some (points, [normals; feature_vectors; features])
  else if String.eqb m "no_normal" then
    Some (points, [view_dirs; feature_vectors; features])
  else None.

Definition forward (net : RenderingNetwork)
  (points normals view_dirs feature_vectors features : tensor)
  : result (option tensor) :=
  let view_dirs := match embedview_fn net with
                   | Some f => f view_dirs
                   | None => view_dirs
                   end in
  rendering_input <-
    (match select (self_mode net) points normals view_dirs feature_vectors
                  features with
     | Some (t, ts) => x <- cat_list t ts ;; Ok (Some x)
     | None => Ok None
     end) ;;
  x <- run_lins net (seq 0 (num_layers net - 1)) rendering_input ;;
  if self_squeeze_out net then
    match x with
    | Some t => Ok (Some (tmap sigmoid t))
    | None => Raise TypeError
    end
  else Ok x.


Definition with_mode (cfg : Config) (m : string) : Config :=
  mkConfig (d_feature cfg) m (d_in cfg) (d_out cfg) (d_hidden cfg)
           (n_layers cfg) (weight_norm cfg) (multires_view cfg)
           (squeeze_out cfg) (image_feature_dim cfg).

(** The width [__init__] gives the first layer. *)
Definition init_first_width (get_embedder : get_embedder_t) (cfg : Config) : Z :=
  (Z.of_nat (d_in cfg + d_feature cfg + image_feature_dim cfg)
   + (if (0 <? multires_view cfg)%Z
      then Z.of_nat (input_ch (get_embedder (multires_view cfg) None)) - 3
      else 0))%Z.

(** The first layer's input width as the specification words it: the
    point, SDF-feature and image-feature widths always, the
    view-direction width [w_view] unless the mode excludes view
    directions, the normal width [w_normal] unless the mode excludes
    normals, plus the extra width of the view embedding. *)
Definition spec_first_width (cfg : Config) (w_view w_normal : nat) (extra : Z)
  : Z :=
  (Z.of_nat (d_in cfg + d_feature cfg + image_feature_dim cfg)
   + (if String.eqb (mode cfg) "no_view_dir" then 0 else Z.of_nat w_view)
   + (if String.eqb (mode cfg) "no_normal" then 0 else Z.of_nat w_normal)
   + extra)%Z.

(** The total width of the tensors to concatenate. *)
Definition total_width (t : tensor) (ts : list tensor) : nat :=
  fold_left (fun w u => w + ncols u) ts (ncols t).

End Rendering.

(** ** NeRF *)

Module NeRFNet.
Import Torch.

Record Config : Type := mkConfig {
  D : Z;
  W : nat;
  d_in : nat;
  d_in_view : nat;
  multires : Z;
  multires_view : Z;
  output_ch : nat;
  skips : list Z;
  use_viewdirs : bool
}.

Record NeRF : Type := mkNeRF {
  embed_fn : option (tensor -> tensor);
  embed_fn_view : option (tensor -> tensor);
  self_skips : list Z;
  self_use_viewdirs : bool;
  pts_linears : list Linear;
  views_linears : list Linear;
  feature_linear : option Linear;
  alpha_linear : option Linear;
  rgb_linear : option Linear;
  output_linear : option Linear
}.

Definition in_skips (sk : list Z) (i : nat) : bool :=
  existsb (Z.eqb (Z.of_nat i)) sk.

(** The constructed network when its parameter tensors hold [th]; the
    point layers are numbered from 0, the other layers follow them. *)
Definition NeRF_init (get_embedder : get_embedder_t) (cfg : Config)
  (th : params) : NeRF :=
  let pe := if (0 <? multires cfg)%Z
            then Some (get_embedder (multires cfg) (Some (d_in cfg)))
            else None in
  let ve := if (0 <? multires_view cfg)%Z
            then Some (get_embedder (multires_view cfg) (Some (d_in_view cfg)))
            else None in
  let input_ch := match pe with Some e => input_ch e | None => 3 end in
  let input_ch_view := match ve with Some e => Torch.input_ch e | None => 3 end in
  let w := W cfg in
  let n := Z.to_nat (D cfg - 1) in
  let pts :=
    Linear_of th false 0 input_ch w
      :: map (fun i => if negb (in_skips (skips cfg) i)
                       then Linear_of th false (S i) w w
                       else Linear_of th false (S i) (w + input_ch) w)
             (seq 0 n) in
  let views := [Linear_of th false (S n) (input_ch_view + w) (w / 2)] in
  mkNeRF (option_map embed pe) (option_map embed ve) (skips cfg)
    (use_viewdirs cfg) pts views
    (if use_viewdirs cfg then Some (Linear_of th false (n + 2) w w) else None)
    (if use_viewdirs cfg then Some (Linear_of th false (n + 3) w 1) else None)
    (if use_viewdirs cfg then Some (Linear_of th false (n + 4) (w / 2) 3)
     else None)
    (if use_viewdirs cfg then None
     else Some (Linear_of th false (n + 2) w (output_ch cfg))).

(** The loop over [self.pts_linears], from index [i] on. *)
Fixpoint run_pts (net : NeRF) (input_pts : tensor) (i : nat)
  (ls : list Linear) (h : tensor) : result tensor :=
  match ls with
  | [] => Ok h
  | l :: ls' =>
      h <- Linear_forward l h ;;
      let h := tmap relu h in
      h <- (if in_skips (self_skips net) i then cat input_pts h else Ok h) ;;
      run_pts net input_pts (S i) ls' h
  end.

Fixpoint run_views (ls : list Linear) (h : tensor) : result tensor :=
  match ls with
  | [] => Ok h
  | l :: ls' => h <- Linear_forward l h ;; run_views ls' (tmap relu h)
  end.

Definition attr (a : option Linear) : result Linear :=
  match a with
  | Some l => Ok l
  | None => Raise AttributeError
  end.

Definition forward (net : NeRF) (input_pts input_views : tensor)
  : result (tensor * tensor) :=
  let input_pts := match embed_fn net with
                   | Some f => f input_pts
                   | None => input_pts
                   end in
  let input_views := match embed_fn_view net with
                     | Some f => f input_views
                     | None => input_views
                     end in
  h <- run_pts net input_pts 0 (pts_linears net) input_pts ;;
  if self_use_viewdirs net then
    al <- attr (alpha_linear net) ;;
    alpha <- Linear_forward al h ;;
    fl <- attr (feature_linear net) ;;
    feature <- Linear_forward fl h ;;
    h <- cat feature input_views ;;
    h <- run_views (views_linears net) h ;;
    rl <- attr (rgb_linear net) ;;
    rgb <- Linear_forward rl h ;;
    Ok (alpha, rgb)
  else Raise AssertionError.

End NeRFNet.

(** ** SingleVarianceNetwork *)

Module Variance.
Import Torch.

Record SingleVarianceNetwork : Type := mkSingleVarianceNetwork {
  variance : R
}.


Definition forward (net : SingleVarianceNetwork) (x : tensor) : result tensor :=
  tmul (ones (nrows x) 1) (Scalar0 (exp (variance net * 10.0))).

End Variance.

(** ** Concrete configurations used as test inputs *)

Module Samples.
Import Torch.

(** An embedder collaborator: one frequency band is not computed here,
    the input is passed through and declared as such. *)
Definition id_embedder : get_embedder_t :=
  fun _ dims => mkEmbedder (fun x => x) (match dims with Some d => d | None => 3 end).

(** The default arguments of [SDFNetwork] on a narrow network. *)
Definition sdf_cfg (n : Z) (skip : list Z) : SDF.Config :=
  SDF.mkConfig 3 2 1 n skip 0 0.5 (Vec1 [1; 1; 2]%R) true true false 0.

(** An embedder with one frequency band: every coordinate is followed by
    its sine and cosine. *)
Definition band_embedder : get_embedder_t :=
  fun _ dims =>
    mkEmbedder
      (fun x => mkT (3 * ncols x)
                    (map (fun r => r ++ map sin r ++ map cos r) (trows x)))
      (3 * match dims with Some d => d | None => 3 end).

(** A network with an embedding in use and a skip connection at layer 1. *)
Definition sdf_cfg_emb : SDF.Config :=
  SDF.mkConfig 3 2 4 3 [1%Z] 1 0.5 (Vec1 [1; 1; 2]%R) true true false 5.

(** A three-layer network without embedding, feature slot or weight
    normalisation, with a skip connection at layer 0 and a Scale Vector
    of ones; its parameters make the last layer the constant 1. *)
Definition flat_cfg : SDF.Config :=
  SDF.mkConfig 3 1 1 2 [0%Z] 0 0.5 (Vec1 [1; 1; 1]%R) true false false 0.

Definition unit_params : params :=
  mkParams (fun _ _ _ => 0%R)
           (fun l _ => if l =? 2 then 1%R else 0%R)
           (fun _ _ => 1%R).

Definition flat_net : SDF.SDFNetwork :=
  SDF.load unit_params (SDF.built id_embedder flat_cfg).

Definition origin : tensor := mkT 3 [[0; 0; 0]%R].

(** The same network with [d_out = 2] and the default Scale Vector
    [1.0, 1.0, 2.0]. *)
Definition wide_cfg : SDF.Config :=
  SDF.mkConfig 3 2 1 2 [0%Z] 0 0.5 (Vec1 [1; 1; 2]%R) true false false 0.

Definition wide_net : SDF.SDFNetwork :=
  SDF.load unit_params (SDF.built id_embedder wide_cfg).

(** A rendering network with 4-wide SDF features and 4-wide image
    features; [d] is the [d_in] argument. *)
Definition render_cfg (m : string) (d : nat) : Rendering.Config :=
  Rendering.mkConfig 4 m d 3 2 1 true 0 true 4.

Definition row3 : tensor := mkT 3 [[0; 0; 0]%R].
Definition row4 : tensor := mkT 4 [[0; 0; 0; 0]%R].

(** The arguments of [Samples.sdf_cfg_emb] with geometric initialisation
    switched off. *)
Definition sdf_cfg_plain : SDF.Config :=
  SDF.mkConfig 3 2 4 3 [1%Z] 1 0.5 (Vec1 [1; 1; 2]%R) false true false 5.


(** The network of [wide_cfg] with a feature slot of width 4. *)
Definition feat_cfg : SDF.Config :=
  SDF.mkConfig 3 2 1 2 [0%Z] 0 0.5 (Vec1 [1; 1; 2]%R) true false false 4.

(** A view-conditioned NeRF with three point layers and a skip after
    layer 1, and the same network with the skip after the last layer. *)
Definition nerf_views : NeRFNet.Config :=
  NeRFNet.mkConfig 3 4 3 3 0 0 4 [1%Z] true.

Definition nerf_views_last_skip : NeRFNet.Config :=
  NeRFNet.mkConfig 3 4 3 3 0 0 4 [2%Z] true.

(** [NeRF()] with its default arguments: [use_viewdirs] is [False]. *)
Definition nerf_default : NeRFNet.Config :=
  NeRFNet.mkConfig 8 256 3 3 0 0 4 [4%Z] false.

End Samples.

(** ** Further tensor operations and shape bookkeeping *)

Module TorchExt.
Import Torch.

(** [t.expand(-1, n)] on a tensor of shape [B, 1]: the single column is
    repeated [n] times. *)
Definition expand_cols (n : nat) (t : tensor) : tensor :=
  mkT n (map (fun r => repeat (hd 0%R r) n) (trows t)).

End TorchExt.

Module SDFExt.
Import Torch SDF.

(** The weight tensors hold, wherever the constructor wrote a constant,
    that constant: the state of the parameters right after construction,
    whatever the random draws were. *)
Definition holds_constants (th : params) (ini : SDFInit) : Prop :=
  forall l lin r c x,
    nth_error (i_layers ini) l = Some lin ->
    weight_entry lin r c = Some (Constant x) ->
    p_weight th l r c = x.

(** The feature tensor [forward] concatenates. *)
Definition feature_slot (features : option tensor) (B F : nat) : tensor :=
  match features with
  | Some f => f
  | None => zeros B F
  end.

End SDFExt.

Module NeRFExt.
Import Torch NeRFNet.

(** [self.input_ch] and [self.input_ch_view] after [__init__]. *)
Definition input_ch_of (ge : get_embedder_t) (cfg : Config) : nat :=
  if (0 <? multires cfg)%Z
  then input_ch (ge (multires cfg) (Some (d_in cfg))) else 3.

Definition input_ch_view_of (ge : get_embedder_t) (cfg : Config) : nat :=
  if (0 <? multires_view cfg)%Z
  then input_ch (ge (multires_view cfg) (Some (d_in_view cfg))) else 3.

(** The index of the last point layer. *)
Definition last_pts (cfg : Config) : nat := Z.to_nat (D cfg - 1).

(** The input width of point layer [j]: the embedded point width for
    layer 0, and [W] widened by the embedded point width when the
    previous index is a skip index. *)
Definition pts_in_width (ge : get_embedder_t) (cfg : Config) (j : nat) : nat :=
  match j with
  | 0 => input_ch_of ge cfg
  | S i => if in_skips (skips cfg) i then W cfg + input_ch_of ge cfg
           else W cfg
  end.

End NeRFExt.

(** * Properties *)

(** ** Construction of the SDF network *)

Section SDFConstruction.
Import Torch SDF.
Open Scope Z_scope.

Lemma fold_max_lt (t : list Z) (x n : Z) :
  fold_left Z.max t x < n <-> x < n /\ Forall (fun y => y < n) t.
Proof.
  revert x; induction t as [|y t IH]; intros x; simpl.
  - split; [intros H; split; [exact H | constructor] | intros [H _]; exact H].
  - rewrite IH. split.
    + intros [H1 H2]. split; [lia |]. constructor; [lia | exact H2].
    + intros [H1 H2]. inversion H2; subst. split; [lia | assumption].
Qed.

Lemma fold_min_ge (t : list Z) (x n : Z) :
  n <= fold_left Z.min t x <-> n <= x /\ Forall (fun y => n <= y) t.
Proof.
  revert x; induction t as [|y t IH]; intros x; simpl.
  - split; [intros H; split; [exact H | constructor] | intros [H _]; exact H].
  - rewrite IH. split.
    + intros [H1 H2]. split; [lia |]. constructor; [lia | exact H2].
    + intros [H1 H2]. inversion H2; subst. split; [lia | assumption].
Qed.

Lemma check_skip_in_None (skip : list Z) (n : Z) :
  check_skip_in skip n = None <-> valid_skip skip n.
Proof.
  unfold check_skip_in, valid_skip.
  destruct skip as [|x t].
  - simpl. split.
    + destruct ((-1 >=? n) || (n <? 0)); discriminate.
    + intros [H _]. congruence.
  - cbn [py_max py_min].
    pose proof (fold_max_lt t x n) as Hmax.
    pose proof (fold_max_lt t x (n - 1)) as Hmax1.
    pose proof (fold_min_ge t x 0) as Hmin.
    destruct (Z.geb_spec (fold_left Z.max t x) n) as [H1|H1];
      destruct (Z.ltb_spec (fold_left Z.min t x) 0) as [H2|H2];
      destruct (Z.geb_spec (fold_left Z.max t x) (n - 1)) as [H3|H3];
      cbn [orb]; split; try discriminate; try reflexivity;
      try (intros [_ HF]; exfalso; inversion HF as [|? ? Hx Ht]; subst;
           assert (Hlt : x < n - 1 /\ Forall (fun y => y < n - 1) t)
             by (split; [lia | eapply Forall_impl; [|exact Ht]; simpl; lia]);
           assert (Hge : 0 <= x /\ Forall (fun y => 0 <= y) t)
             by (split; [lia | eapply Forall_impl; [|exact Ht]; simpl; lia]);
           apply Hmax1 in Hlt; apply Hmin in Hge; lia).
    intros _. split; [discriminate |].
    assert (Ha : fold_left Z.max t x < n - 1) by lia.
    assert (Hb : 0 <= fold_left Z.min t x) by lia.
    apply Hmax1 in Ha. apply Hmin in Hb.
    destruct Ha as [Ha1 Ha2], Hb as [Hb1 Hb2].
    constructor; [lia |].
    rewrite Forall_forall in *. intros y Hy.
    specialize (Ha2 y Hy). specialize (Hb2 y Hy). simpl in *. lia.
Qed.

Lemma check_skip_in_ValueError (skip : list Z) (n : Z) (e : exn) :
  check_skip_in skip n = Some e -> exists m, e = ValueError m.
Proof.
  unfold check_skip_in.
  destruct (_ || _); [intros H; inversion H; eauto |].
  destruct (_ || _); [intros H; inversion H; eauto | discriminate].
Qed.

Lemma fold_append_layers (f : nat -> LinearInit) (ls : list nat) (s : Self) :
  fold_left (fun s l => mkSelf (s_attrs s) (s_layers s ++ [f l]) (s_fusion s))
            ls s
  = mkSelf (s_attrs s) (s_layers s ++ map f ls) (s_fusion s).
Proof.
  revert s; induction ls as [|l ls IH]; intros s; simpl.
  - rewrite app_nil_r. destruct s; reflexivity.
  - rewrite IH. simpl. rewrite <- app_assoc. reflexivity.
Qed.

Lemma SDFNetwork_init_ok (ge : get_embedder_t) (cfg : Config) :
  check_skip_in (skip_in cfg) (n_layers cfg) = None ->
  SDFNetwork_init ge cfg = Ok (built ge cfg).
Proof.
  intros H. unfold SDFNetwork_init, init_steps. rewrite H.
  rewrite fold_append_layers. reflexivity.
Qed.

Lemma length_make_dims (E : nat) (cfg : Config) :
  length (make_dims E cfg) = (Z.to_nat (n_layers cfg) + 2)%nat.
Proof.
  unfold make_dims. simpl. rewrite length_app, repeat_length. simpl. lia.
Qed.

Lemma length_built_layers (ge : get_embedder_t) (cfg : Config) :
  length (built_layers ge cfg) = (Z.to_nat (n_layers cfg) + 1)%nat.
Proof.
  unfold built_layers. rewrite length_map, length_seq, length_make_dims. lia.
Qed.

End SDFConstruction.

Section SDFConstructionClaims.
Import Torch SDF.
Open Scope Z_scope.

(** C1, as amended. Construction succeeds exactly when the skip set is
    non-empty and every skip index lies in [0, n_layers - 2]; it then
    yields a stack of [n_layers + 1] layers. Otherwise it raises
    [ValueError], and it does so before anything has been assigned to the
    object under construction. *)
Theorem SDFNetwork_init_valid_iff (ge : get_embedder_t) (cfg : Config) :
  (valid_skip (skip_in cfg) (n_layers cfg)
   <-> exists ini, SDFNetwork_init ge cfg = Ok ini)
  /\ (forall ini, SDFNetwork_init ge cfg = Ok ini ->
        Z.of_nat (length (i_layers ini)) = n_layers cfg + 1)
  /\ (forall e, SDFNetwork_init ge cfg = Raise e ->
        (exists m, e = ValueError m)
        /\ init_steps ge cfg fresh = (fresh, Some e)).
Proof.
  destruct (check_skip_in (skip_in cfg) (n_layers cfg)) as [e0|] eqn:Hc.
  - assert (Hno : ~ valid_skip (skip_in cfg) (n_layers cfg)).
    { intros Hv. apply check_skip_in_None in Hv. congruence. }
    assert (Hst : init_steps ge cfg fresh = (fresh, Some e0)).
    { unfold init_steps. rewrite Hc. reflexivity. }
    assert (Hr : SDFNetwork_init ge cfg = Raise e0).
    { unfold SDFNetwork_init. rewrite Hst. reflexivity. }
    rewrite Hr. split; [split | split].
    + intros Hv. contradiction.
    + intros [ini H]. discriminate.
    + intros ini H. discriminate.
    + intros e H. inversion H; subst. split; [| exact Hst].
      eapply check_skip_in_ValueError; eassumption.
  - pose proof (proj1 (check_skip_in_None _ _) Hc) as Hv.
    pose proof (SDFNetwork_init_ok ge cfg Hc) as Hok.
    rewrite Hok. split; [split | split].
    + intros _. eexists; reflexivity.
    + intros _. exact Hv.
    + intros ini H. inversion H; subst. simpl.
      rewrite length_built_layers.
      destruct Hv as [Hne HF]. destruct (skip_in cfg) as [|x t]; [congruence|].
      inversion HF; subst. lia.
    + intros e H. discriminate.
Qed.

Lemma SDFNetwork_init_valid_iff_witness :
  exists ini, SDFNetwork_init Samples.id_embedder (Samples.sdf_cfg 8 [4]) = Ok ini
              /\ Z.of_nat (length (i_layers ini)) = 9.
Proof.
  destruct (SDFNetwork_init_valid_iff Samples.id_embedder (Samples.sdf_cfg 8 [4]))
    as [Hiff [Hlen _]].
  destruct (proj1 Hiff) as [ini Hini].
  - split; [discriminate |]. constructor; [simpl; lia | constructor].
  - exists ini. split; [exact Hini |]. exact (Hlen ini Hini).
Defined.

(** C1, as stated, fails: with [n_layers = 8] the skip set (4, 7) has an
    index in [0, n_layers - 2] and all its indices in [0, n_layers - 1],
    yet the second guard refuses it. *)
Lemma SDFNetwork_init_rejects_4_7 :
  let cfg := Samples.sdf_cfg 8 [4; 7] in
  2 <= n_layers cfg
  /\ (exists i, In i (skip_in cfg) /\ 0 <= i <= n_layers cfg - 2)
  /\ Forall (fun i => 0 <= i <= n_layers cfg - 1) (skip_in cfg)
  /\ SDFNetwork_init Samples.id_embedder cfg = Raise (ValueError MustBeInterior).
Proof.
  simpl. split; [lia |]. split.
  - exists 4. split; [left; reflexivity | lia].
  - split.
    + repeat constructor; lia.
    + reflexivity.
Qed.

End SDFConstructionClaims.

(** ** Geometric initialisation *)

Section GeometricInit.
Import Torch SDF.

Lemma nth_error_combine_seq {A : Type} (row : list A) (a c : nat) :
  nth_error (combine (seq a (length row)) row) c
  = option_map (fun x => (a + c, x)) (nth_error row c).
Proof.
  revert a c; induction row as [|x row IH]; intros a c; simpl.
  - destruct c; reflexivity.
  - destruct c as [|c]; simpl.
    + rewrite Nat.add_0_r. reflexivity.
    + rewrite IH. replace (S a + c) with (a + S c) by lia. reflexivity.
Qed.

Lemma entry_of_fill_cols (sel : nat -> bool) (e : init_entry)
  (w : list (list init_entry)) (r c : nat) :
  entry_of (fill_cols sel e w) r c
  = option_map (fun old => if sel c then e else old) (entry_of w r c).
Proof.
  unfold entry_of, fill_cols. rewrite nth_error_map.
  destruct (nth_error w r) as [row|]; simpl; [| reflexivity].
  rewrite nth_error_map, nth_error_combine_seq.
  destruct (nth_error row c); reflexivity.
Qed.

Lemma entry_of_default (i o r c : nat) :
  r < o -> c < i -> entry_of (repeat (repeat Default i) o) r c = Some Default.
Proof.
  intros Hr Hc. unfold entry_of.
  rewrite nth_error_repeat by exact Hr. apply nth_error_repeat. exact Hc.
Qed.

Lemma bias_entry_constant (c : R) (lin : LinearInit) (r : nat) :
  r < length (b_init lin) ->
  bias_entry (constant_bias c lin) r = Some (Constant c).
Proof.
  intros Hr. unfold bias_entry, constant_bias. simpl. rewrite nth_error_map.
  destruct (nth_error (b_init lin) r) eqn:E; [reflexivity |].
  apply nth_error_None in E. lia.
Qed.

(** Weight normalisation keeps zero entries: where the direction
    [weight_v] is zero, so is the weight the layer computes with. *)
Lemma effective_weight_keeps_zero (l : Linear) (r c : nat) (row : list R) :
  nth_error (weight l) r = Some row ->
  nth_error row c = Some 0%R ->
  forall row', nth_error (effective_weight l) r = Some row' ->
               nth_error row' c = Some 0%R.
Proof.
  intros Hr Hc row'. unfold effective_weight.
  destruct (weight_g l) as [g|].
  - rewrite nth_error_map.
    destruct (nth_error (combine g (weight l)) r) as [[gr wr]|] eqn:E;
      [| discriminate].
    simpl. intros H. inversion H; subst.
    assert (Hwr : nth_error (weight l) r = Some wr).
    { revert r Hr E. generalize (weight l) as w.
      induction g as [|a g IH]; intros w r Hr E.
      - destruct r; discriminate.
      - destruct w as [|b w]; [destruct r; discriminate |].
        destruct r as [|r]; simpl in *.
        + inversion E; subst. reflexivity.
        + eapply IH; eassumption. }
    rewrite Hr in Hwr. inversion Hwr; subst.
    rewrite nth_error_map, Hc. simpl. f_equal. ring.
  - rewrite Hr. intros H. inversion H; subst. exact Hc.
Qed.

Lemma SDFNetwork_init_inv (ge : get_embedder_t) (cfg : Config) (ini : SDFInit) :
  SDFNetwork_init ge cfg = Ok ini ->
  valid_skip (skip_in cfg) (n_layers cfg)
  /\ i_attrs ini = built_attrs ge cfg
  /\ i_layers ini = built_layers ge cfg.
Proof.
  intros H.
  destruct (check_skip_in (skip_in cfg) (n_layers cfg)) as [e0|] eqn:Hc.
  - unfold SDFNetwork_init, init_steps in H. rewrite Hc in H. discriminate.
  - pose proof (SDFNetwork_init_ok ge cfg Hc) as Hok.
    rewrite Hok in H. inversion H; subst. simpl.
    split; [apply check_skip_in_None; exact Hc | split; reflexivity].
Qed.

Lemma valid_skip_depth (skip : list Z) (n : Z) :
  valid_skip skip n -> (2 <= n)%Z.
Proof.
  intros [Hne HF]. destruct skip as [|x t]; [congruence |].
  inversion HF; subst. lia.
Qed.

Lemma is_skip_In (skip : list Z) (l : nat) :
  is_skip skip l = true -> In (Z.of_nat l) skip.
Proof.
  unfold is_skip. rewrite existsb_exists. intros [x [Hx He]].
  apply Z.eqb_eq in He. subst. exact Hx.
Qed.

Lemma valid_skip_interior (skip : list Z) (n : Z) (l : nat) :
  valid_skip skip n -> is_skip skip l = true -> l < Z.to_nat n - 1.
Proof.
  intros [_ HF] Hs. apply is_skip_In in Hs.
  rewrite Forall_forall in HF. specialize (HF _ Hs). simpl in HF. lia.
Qed.

Lemma build_layer_shape (cfg : Config) (E : nat) (dims : list nat) (l : nat) :
  in_dim (build_layer cfg E dims l)
  = (if is_skip (skip_in cfg) l then nth l dims 0 + E else nth l dims 0)
  /\ out_dim (build_layer cfg E dims l) = nth (l + 1) dims 0
  /\ wn (build_layer cfg E dims l) = weight_norm cfg.
Proof.
  unfold build_layer.
  destruct (geometric_init cfg), (l =? length dims - 2), (inside_outside cfg),
    (0 <? multires cfg)%Z, (l =? 0), (is_skip (skip_in cfg) l), (3 <? E),
    (weight_norm cfg); simpl; repeat split; reflexivity.
Qed.

(** The first layer under geometric initialisation with an embedding. *)
Lemma build_layer_first (cfg : Config) (E : nat) (dims : list nat) (r c : nat) :
  geometric_init cfg = true -> (0 < multires cfg)%Z ->
  (0 =? length dims - 2) = false ->
  let lin := build_layer cfg E dims 0 in
  r < out_dim lin -> c < in_dim lin ->
  bias_entry lin r = Some (Constant 0)
  /\ weight_entry lin r c
     = Some (if 3 <=? c then Constant 0
             else Normal 0 (sqrt 2 / sqrt (INR (out_dim lin)))).
Proof.
  intros Hg Hm Hl lin.
  pose proof (build_layer_shape cfg E dims 0) as [Hi [Ho _]].
  fold lin in Hi, Ho. rewrite Hi, Ho. subst lin. unfold build_layer.
  rewrite Hg, Hl. apply Z.ltb_lt in Hm. rewrite Hm. simpl (_ && _).
  intros Hr Hc.
  destruct (weight_norm cfg); unfold weight_entry, bias_entry; simpl;
    rewrite nth_error_map, nth_error_repeat by exact Hr;
    rewrite !entry_of_fill_cols, entry_of_default by assumption; simpl;
    (split; [reflexivity |]); destruct c as [|[|[|c]]]; reflexivity.
Qed.

(** A skip layer other than the first one, under geometric
    initialisation with an embedding. *)
Lemma build_layer_skip (cfg : Config) (E : nat) (dims : list nat) (l r c : nat) :
  geometric_init cfg = true -> (0 < multires cfg)%Z ->
  (l =? length dims - 2) = false -> l <> 0 ->
  is_skip (skip_in cfg) l = true ->
  let lin := build_layer cfg E dims l in
  r < out_dim lin -> c < in_dim lin ->
  bias_entry lin r = Some (Constant 0)
  /\ weight_entry lin r c
     = Some (if (3 <? E) && (in_dim lin - (E - 3) <=? c) then Constant 0
             else Normal 0 (sqrt 2 / sqrt (INR (out_dim lin)))).
Proof.
  intros Hg Hm Hl Hl0 Hs lin.
  pose proof (build_layer_shape cfg E dims l) as [Hi [Ho _]].
  fold lin in Hi, Ho. rewrite Hi, Ho. subst lin. unfold build_layer.
  rewrite Hg, Hl, Hs. apply Z.ltb_lt in Hm. rewrite Hm.
  apply Nat.eqb_neq in Hl0. rewrite Hl0. simpl (_ && _).
  intros Hr Hc.
  destruct (weight_norm cfg), (3 <? E); unfold weight_entry, bias_entry; simpl;
    rewrite nth_error_map, nth_error_repeat by exact Hr;
    rewrite !entry_of_fill_cols, entry_of_default by assumption;
    (split; [reflexivity |]); simpl; unfold last_cols, all_cols;
    try destruct (_ <=? c); reflexivity.
Qed.

End GeometricInit.

Section GeometricInitClaims.
Import Torch SDF.

Lemma nth_error_seq_inv (a k l x : nat) :
  nth_error (seq a k) l = Some x -> x = a + l /\ l < k.
Proof.
  intros H.
  assert (Hl : l < k).
  { rewrite <- (length_seq k a). apply nth_error_Some. congruence. }
  split; [| exact Hl].
  apply (nth_error_nth _ _ 0) in H. rewrite seq_nth in H by exact Hl. lia.
Qed.

Lemma built_layers_nth (ge : get_embedder_t) (cfg : Config) (l : nat)
  (lin : LinearInit) :
  nth_error (built_layers ge cfg) l = Some lin ->
  let E := input_ch (the_embedder ge cfg) in
  lin = build_layer cfg E (make_dims E cfg) l
  /\ l < Z.to_nat (n_layers cfg) + 1.
Proof.
  unfold built_layers. cbv zeta. rewrite nth_error_map. intros H.
  destruct (nth_error _ l) as [x|] eqn:Hx; [| discriminate].
  apply nth_error_seq_inv in Hx. destruct Hx as [Hx Hl]. simpl in Hx. subst x.
  inversion H; subst. split; [reflexivity |].
  rewrite length_make_dims in Hl. lia.
Qed.

(** C3. With geometric initialisation and an embedding in use, right
    after construction: layer 0 has a zero bias, a zero weight in every
    column of index at least 3 and draws from N(0, sqrt 2 / sqrt out_dim)
    in columns 0 to 2; every skip layer has a zero bias and, when the
    embedded width exceeds 3, a zero weight in its trailing
    [embedded_dim - 3] columns, its other weight entries (for a skip
    layer other than layer 0) being draws from the same distribution. *)
Theorem geometric_init_with_embedding (ge : get_embedder_t) (cfg : Config)
  (ini : SDFInit) (l : nat) (lin : LinearInit) :
  SDFNetwork_init ge cfg = Ok ini ->
  geometric_init cfg = true ->
  (0 < multires cfg)%Z ->
  nth_error (i_layers ini) l = Some lin ->
  let E := a_embedded_input_dim (i_attrs ini) in
  let std := (sqrt 2 / sqrt (INR (out_dim lin)))%R in
  (l = 0 ->
     (forall r, r < out_dim lin -> bias_entry lin r = Some (Constant 0))
     /\ (forall r c, r < out_dim lin -> c < in_dim lin -> 3 <= c ->
           weight_entry lin r c = Some (Constant 0))
     /\ (forall r c, r < out_dim lin -> c < in_dim lin -> c < 3 ->
           weight_entry lin r c = Some (Normal 0 std)))
  /\ (is_skip (skip_in cfg) l = true ->
     (forall r, r < out_dim lin -> bias_entry lin r = Some (Constant 0))
     /\ (3 < E -> forall r c, r < out_dim lin -> c < in_dim lin ->
           in_dim lin - (E - 3) <= c ->
           weight_entry lin r c = Some (Constant 0))
     /\ (l <> 0 -> forall r c, r < out_dim lin -> c < in_dim lin ->
           E <= 3 \/ c < in_dim lin - (E - 3) ->
           weight_entry lin r c = Some (Normal 0 std))).
Proof.
  intros Hok Hg Hm Hnth E std.
  destruct (SDFNetwork_init_inv _ _ Hok) as [Hv [Ha Hl]].
  rewrite Hl in Hnth. apply built_layers_nth in Hnth.
  destruct Hnth as [Hlin Hlt].
  assert (HE : E = input_ch (the_embedder ge cfg)).
  { unfold E. rewrite Ha. reflexivity. }
  rewrite <- HE in Hlin.
  pose proof (valid_skip_depth Hv) as Hn.
  pose proof (length_make_dims E cfg) as Hlen.
  assert (H0 : (0 =? length (make_dims E cfg) - 2) = false).
  { apply Nat.eqb_neq. lia. }
  assert (Hfirst : l = 0 -> forall r c, r < out_dim lin -> c < in_dim lin ->
            bias_entry lin r = Some (Constant 0)
            /\ weight_entry lin r c
               = Some (if 3 <=? c then Constant 0 else Normal 0 std)).
  { intros -> r c Hr Hc. unfold std. rewrite Hlin in *.
    apply build_layer_first; assumption. }
  split.
  - intros L0. split; [| split].
    + intros r Hr.
      destruct (in_dim lin) as [|k] eqn:Hk.
      * subst l. rewrite Hlin. unfold bias_entry, build_layer.
        rewrite Hg, H0. apply Z.ltb_lt in Hm. rewrite Hm. simpl (_ && _).
        rewrite Hlin in Hr.
        pose proof (build_layer_shape cfg E (make_dims E cfg) 0) as [_ [Ho _]].
        rewrite Ho in Hr.
        destruct (weight_norm cfg); simpl; rewrite nth_error_map;
          rewrite nth_error_repeat by exact Hr; reflexivity.
      * apply (Hfirst L0 r 0 Hr). lia.
    + intros r c Hr Hc H3. destruct (Hfirst L0 r c Hr Hc) as [_ Hw].
      rewrite Hw. destruct (Nat.leb_spec 3 c); [reflexivity | lia].
    + intros r c Hr Hc H3. destruct (Hfirst L0 r c Hr Hc) as [_ Hw].
      rewrite Hw. destruct (Nat.leb_spec 3 c); [lia | reflexivity].
  - intros Hs.
    pose proof (valid_skip_interior l Hv Hs) as Hint.
    assert (Hnl : (l =? length (make_dims E cfg) - 2) = false).
    { apply Nat.eqb_neq. lia. }
    pose proof (build_layer_shape cfg E (make_dims E cfg) l) as [Hi [Ho _]].
    rewrite Hs in Hi. rewrite <- Hlin in Hi, Ho.
    assert (HinE : E <= in_dim lin) by lia.
    destruct (Nat.eq_dec l 0) as [L0|L0].
    + split; [| split].
      * intros r Hr.
        destruct (in_dim lin) as [|k] eqn:Hk.
        { subst l. rewrite Hlin. unfold bias_entry, build_layer.
          rewrite Hg, H0. apply Z.ltb_lt in Hm. rewrite Hm. simpl (_ && _).
          rewrite Ho in Hr.
          destruct (weight_norm cfg); simpl; rewrite nth_error_map;
            rewrite nth_error_repeat by exact Hr; reflexivity. }
        { apply (Hfirst L0 r 0 Hr). lia. }
      * intros HE3 r c Hr Hc Htr. destruct (Hfirst L0 r c Hr Hc) as [_ Hw].
        rewrite Hw. subst l. unfold make_dims in Hi. simpl in Hi.
        destruct (Nat.leb_spec 3 c); [reflexivity | lia].
      * intros Hne. contradiction.
    + assert (Hskip : forall r c, r < out_dim lin -> c < in_dim lin ->
                bias_entry lin r = Some (Constant 0)
                /\ weight_entry lin r c
                   = Some (if (3 <? E) && (in_dim lin - (E - 3) <=? c)
                           then Constant 0 else Normal 0 std)).
      { intros r c Hr Hc. unfold std. rewrite Hlin in *.
        apply build_layer_skip; assumption. }
      split; [| split].
      * intros r Hr.
        destruct (in_dim lin) as [|k] eqn:Hk.
        { rewrite Hlin. unfold bias_entry, build_layer.
          rewrite Hg, Hnl, Hs. apply Z.ltb_lt in Hm. rewrite Hm.
          apply Nat.eqb_neq in L0. rewrite L0. simpl (_ && _).
          rewrite Ho in Hr.
          destruct (weight_norm cfg), (3 <? E); simpl; rewrite nth_error_map;
            rewrite nth_error_repeat by exact Hr; reflexivity. }
        { apply (Hskip r 0 Hr). lia. }
      * intros HE3 r c Hr Hc Htr. destruct (Hskip r c Hr Hc) as [_ Hw].
        rewrite Hw.
        destruct (Nat.ltb_spec 3 E); [| lia].
        destruct (Nat.leb_spec (in_dim lin - (E - 3)) c); [reflexivity | lia].
      * intros _ r c Hr Hc Hrem. destruct (Hskip r c Hr Hc) as [_ Hw].
        rewrite Hw.
        destruct (Nat.ltb_spec 3 E); [| reflexivity].
        destruct (Nat.leb_spec (in_dim lin - (E - 3)) c); [lia | reflexivity].
Qed.

Lemma geometric_init_with_embedding_witness :
  exists ini lin,
    SDFNetwork_init Samples.band_embedder Samples.sdf_cfg_emb = Ok ini
    /\ nth_error (i_layers ini) 1 = Some lin
    /\ in_dim lin = 13 /\ a_embedded_input_dim (i_attrs ini) = 9
    /\ (forall r, r < out_dim lin -> bias_entry lin r = Some (Constant 0))
    /\ (forall r c, r < out_dim lin -> c < 13 -> 7 <= c ->
          weight_entry lin r c = Some (Constant 0)).
Proof.
  pose proof (SDFNetwork_init_ok Samples.band_embedder Samples.sdf_cfg_emb
                eq_refl) as Hok.
  eexists. eexists. split; [exact Hok |].
  split; [reflexivity |].
  split; [reflexivity |]. split; [reflexivity |].
  pose proof (@geometric_init_with_embedding Samples.band_embedder
                Samples.sdf_cfg_emb _ 1 _ Hok eq_refl eq_refl eq_refl)
    as [_ Hskip].
  destruct (Hskip eq_refl) as [Hb [Hz _]].
  split; [exact Hb |].
  intros r c Hr Hc H7. apply Hz.
  - simpl. lia.
  - exact Hr.
  - exact Hc.
  - exact H7.
Defined.

End GeometricInitClaims.

(** ** Shapes of the tensor operations *)

Section TensorShapes.
Import Torch.

Lemma length_zip_with (op : R -> R -> R) (a b : list R) :
  length (zip_with op a b) = Nat.min (length a) (length b).
Proof.
  revert b; induction a as [|x a IH]; intros [|y b]; simpl; auto.
Qed.

Lemma length_zip_app (a b : list (list R)) :
  length (zip_app a b) = Nat.min (length a) (length b).
Proof.
  revert b; induction a as [|x a IH]; intros [|y b]; simpl; auto.
Qed.

Lemma Forall_zip_app (n m : nat) (a b : list (list R)) :
  Forall (fun r => length r = n) a -> Forall (fun r => length r = m) b ->
  Forall (fun r => length r = n + m) (zip_app a b).
Proof.
  intros Ha; revert b; induction Ha as [|x a Hx Ha IH]; intros b Hb.
  - constructor.
  - destruct Hb as [|y b Hy Hb]; simpl; constructor.
    + rewrite length_app. congruence.
    + apply IH. exact Hb.
Qed.

Lemma tmap_shape (f : R -> R) (t : tensor) :
  nrows (tmap f t) = nrows t /\ ncols (tmap f t) = ncols t.
Proof.
  unfold nrows, tmap. simpl. rewrite length_map. split; reflexivity.
Qed.

Lemma tmap_wf (f : R -> R) (t : tensor) :
  wf_tensor t -> wf_tensor (tmap f t).
Proof.
  unfold wf_tensor, tmap. simpl. intros H. rewrite Forall_map.
  eapply Forall_impl; [| exact H]. simpl. intros r Hr.
  rewrite length_map. exact Hr.
Qed.

Lemma cat_shape (a b : tensor) :
  nrows a = nrows b ->
  exists c, cat a b = Ok c
            /\ nrows c = nrows a /\ ncols c = ncols a + ncols b
            /\ (wf_tensor a -> wf_tensor b -> wf_tensor c).
Proof.
  intros H. unfold cat. rewrite H, Nat.eqb_refl. eexists. split; [reflexivity |].
  unfold nrows in *. simpl. rewrite length_zip_app, H, Nat.min_id.
  repeat split. intros Ha Hb. apply Forall_zip_app; assumption.
Qed.

Lemma zeros_shape (n m : nat) :
  nrows (zeros n m) = n /\ ncols (zeros n m) = m /\ wf_tensor (zeros n m).
Proof.
  unfold nrows, zeros, wf_tensor. simpl. rewrite repeat_length.
  repeat split. apply Forall_forall. intros r Hr.
  apply repeat_spec in Hr. subst. apply repeat_length.
Qed.

Lemma broadcast_nrows (op : R -> R -> R) (t : tensor) (s : tensor01)
  (t' : tensor) :
  broadcast op t s = Ok t' -> nrows t' = nrows t.
Proof.
  unfold broadcast, nrows. destruct s as [c|v].
  - intros H. inversion H. simpl. apply length_map.
  - destruct (ncols t =? length v);
      [| destruct (length v =? 1); [| destruct (ncols t =? 1)]];
      intros H; inversion H; simpl; apply length_map.
Qed.

Lemma Linear_of_wf (th : params) (wn : bool) (l i o : nat) :
  wf_linear (Linear_of th wn l i o)
  /\ in_features (Linear_of th wn l i o) = i
  /\ out_features (Linear_of th wn l i o) = o.
Proof.
  unfold wf_linear, Linear_of, tabulate. simpl.
  rewrite !length_map, !length_seq.
  destruct wn; simpl; rewrite ?length_map, ?length_seq; auto.
Qed.

Lemma length_effective_weight (l : Linear) :
  wf_linear l -> length (effective_weight l) = out_features l.
Proof.
  unfold wf_linear, effective_weight. intros [Hw [_ Hg]].
  destruct (weight_g l) as [g|]; [| exact Hw].
  rewrite length_map, length_combine, Hg, Hw. apply Nat.min_id.
Qed.

Lemma Linear_forward_shape (l : Linear) (x : tensor) :
  wf_linear l -> ncols x = in_features l ->
  exists y, Linear_forward l x = Ok y
            /\ nrows y = nrows x /\ ncols y = out_features l /\ wf_tensor y.
Proof.
  intros Hl Hx. unfold Linear_forward. rewrite Hx, Nat.eqb_refl.
  eexists. split; [reflexivity |]. unfold nrows, wf_tensor. simpl.
  rewrite length_map. repeat split.
  rewrite Forall_map. apply Forall_forall. intros r _.
  unfold affine_row. rewrite length_zip_with, length_map.
  rewrite length_effective_weight by exact Hl.
  destruct Hl as [_ [Hb _]]. rewrite Hb. apply Nat.min_id.
Qed.

End TensorShapes.

(** ** The forward pass of the SDF network *)

Section SDFForward.
Import Torch SDF.

(** The layer loop reads the skip set, the embedder and the layer count
    of the network, nothing else. *)
Lemma run_layers_agree (n1 n2 : SDFNetwork) (inputs : tensor)
  (ls : list Linear) :
  self_skip_in n1 = self_skip_in n2 ->
  self_num_layers n1 = self_num_layers n2 ->
  embed_fn_fine n1 = embed_fn_fine n2 ->
  forall l x, run_layers n1 inputs l ls x = run_layers n2 inputs l ls x.
Proof.
  intros Hs Hn He. induction ls as [|layer ls IH]; intros l x; simpl.
  - reflexivity.
  - rewrite Hs, Hn, He.
    destruct (if is_skip (self_skip_in n2) l then _ else _) as [x1|e];
      simpl; [| reflexivity].
    destruct (Linear_forward layer x1) as [x2|e]; simpl; [| reflexivity].
    apply IH.
Qed.

(** C5. Calling [forward], hence [sdf], without features gives exactly
    what it gives with an explicit all-zero feature tensor of shape
    [batch size, feature_dim]. *)
Theorem forward_default_features (net : SDFNetwork) (x : tensor) :
  let z := Some (zeros (nrows x) (self_feature_dim net)) in
  forward net x None = forward net x z
  /\ sdf net x None = sdf net x z.
Proof.
  intros z.
  assert (Hf : forward net x None = forward net x z).
  { unfold forward, z.
    destruct (tmul x (self_scale net)) as [inputs|e] eqn:Hm; simpl;
      [| reflexivity].
    apply broadcast_nrows in Hm. rewrite Hm. reflexivity. }
  split; [exact Hf |]. unfold sdf. rewrite Hf. reflexivity.
Qed.

(** C10. The three fusion layers are never read: two networks that agree
    on everything else return the same results from [forward], [sdf] and
    [gradient], whatever the parameters of [linear_pe], [linear_k] and
    [linear_fused] are. *)
Theorem fusion_layers_unused (autograd : autograd_t) (n1 n2 : SDFNetwork)
  (x : tensor) (features : option tensor) :
  agree_except_fusion n1 n2 ->
  forward n1 x features = forward n2 x features
  /\ sdf n1 x features = sdf n2 x features
  /\ gradient autograd n1 x features = gradient autograd n2 x features.
Proof.
  intros [Hs [Hf [Hn [Hsc [He Hl]]]]].
  assert (Hfw : forall y, forward n1 y features = forward n2 y features).
  { intros y. unfold forward. rewrite Hsc, He, Hf, Hl.
    destruct (tmul y (self_scale n2)) as [inputs|e]; simpl; [| reflexivity].
    destruct (match features with Some f => _ | None => _ end) as [x0|e];
      simpl; [| reflexivity].
    rewrite (run_layers_agree n1 n2 inputs (layers n2) Hs Hn He).
    reflexivity. }
  split; [apply Hfw |]. split.
  - unfold sdf. rewrite Hfw. reflexivity.
  - unfold gradient.
    replace (fun x' => sdf n1 x' features) with (fun x' => sdf n2 x' features);
      [reflexivity |].
    apply functional_extensionality. intros y. unfold sdf. rewrite Hfw.
    reflexivity.
Qed.

Lemma fusion_layers_unused_witness :
  let n1 := with_fusion Samples.flat_net
              (mkLinear 1 1 [[0%R]] [0%R] None)
              (mkLinear 1 1 [[0%R]] [0%R] None)
              (mkLinear 1 1 [[0%R]] [0%R] None) in
  let n2 := with_fusion Samples.flat_net
              (mkLinear 1 1 [[1%R]] [2%R] None)
              (mkLinear 1 1 [[3%R]] [4%R] None)
              (mkLinear 1 1 [[5%R]] [6%R] None) in
  forward n1 Samples.origin None = forward n2 Samples.origin None
  /\ sdf n1 Samples.origin None = sdf n2 Samples.origin None
  /\ gradient (fun f x => f x) n1 Samples.origin None
     = gradient (fun f x => f x) n2 Samples.origin None.
Proof.
  intros n1 n2.
  apply (@fusion_layers_unused (fun f x => f x) n1 n2 Samples.origin None).
  repeat split; reflexivity.
Defined.

End SDFForward.
(** ** Rescaling the Scale Vector *)

Section Rescaling.
Import Torch SDF.
Open Scope R_scope.

Variable k : R.
Hypothesis k_nonzero : k <> 0.

Lemma zip_with_mul_rescale (r v : list R) :
  zip_with Rmult (map (fun a => a / k) r) (map (fun c => k * c) v)
  = zip_with Rmult r v.
Proof.
  revert v; induction r as [|a r IH]; intros [|c v]; simpl; try reflexivity.
  rewrite IH. f_equal. field. exact k_nonzero.
Qed.

Lemma zip_with_div_rescale (r v : list R) :
  zip_with Rdiv r (map (fun c => k * c) v)
  = map (fun a => a / k) (zip_with Rdiv r v).
Proof.
  revert v; induction r as [|a r IH]; intros [|c v]; simpl; try reflexivity.
  rewrite IH. f_equal. unfold Rdiv. rewrite Rinv_mult. ring.
Qed.

Lemma hd_rescale (v : list R) :
  length v = 1%nat -> hd 0 (map (fun c => k * c) v) = k * hd 0 v.
Proof.
  destruct v as [|c v]; simpl; [discriminate | reflexivity].
Qed.

Lemma hd_div (r : list R) :
  hd 0 (map (fun a => a / k) r) = hd 0 r / k.
Proof.
  destruct r as [|a r]; simpl; [| reflexivity]. unfold Rdiv. ring.
Qed.

(** Dividing the points by [k] and multiplying the scale by [k] feeds
    the network the same scaled points. *)
Lemma tmul_rescale (x : tensor) (s : tensor01) :
  tmul (tmap (fun a => a / k) x) (scale_by k s) = tmul x s.
Proof.
  unfold tmul, broadcast. destruct s as [c|v]; simpl.
  - f_equal. unfold tmap. simpl. f_equal. rewrite map_map.
    apply map_ext. intros r. rewrite map_map. apply map_ext. intros a.
    field. exact k_nonzero.
  - rewrite length_map.
    destruct (ncols x =? length v)%nat.
    + f_equal. f_equal. rewrite map_map. apply map_ext. intros r.
      apply zip_with_mul_rescale.
    + destruct (length v =? 1)%nat eqn:Hv.
      * apply Nat.eqb_eq in Hv. rewrite (hd_rescale _ Hv).
        f_equal. unfold tmap. simpl. f_equal. rewrite map_map.
        apply map_ext. intros r. rewrite map_map. apply map_ext. intros a.
        field. exact k_nonzero.
      * destruct (ncols x =? 1)%nat; [| reflexivity].
        f_equal. f_equal. rewrite map_map. apply map_ext. intros r.
        rewrite map_map. apply map_ext. intros c. rewrite hd_div.
        field. exact k_nonzero.
Qed.

(** Dividing by the scale multiplied by [k] is dividing by the scale and
    then by [k]. *)
Lemma tdiv_rescale (t : tensor) (s : tensor01) :
  tdiv t (scale_by k s) = (d <- tdiv t s ;; Ok (tmap (fun a => a / k) d)).
Proof.
  unfold tdiv, broadcast. destruct s as [c|v]; simpl.
  - f_equal. unfold tmap. simpl. f_equal. rewrite map_map.
    apply map_ext. intros r. rewrite map_map. apply map_ext. intros a.
    unfold Rdiv. rewrite Rinv_mult. ring.
  - rewrite length_map.
    destruct (ncols t =? length v)%nat.
    + simpl. f_equal. unfold tmap. simpl. f_equal. rewrite map_map.
      apply map_ext. intros r. apply zip_with_div_rescale.
    + destruct (length v =? 1)%nat eqn:Hv.
      * apply Nat.eqb_eq in Hv. rewrite (hd_rescale _ Hv). simpl.
        f_equal. unfold tmap. simpl. f_equal. rewrite map_map.
        apply map_ext. intros r. rewrite map_map. apply map_ext. intros a.
        unfold Rdiv. rewrite Rinv_mult. ring.
      * destruct (ncols t =? 1)%nat; [| reflexivity]. simpl.
        f_equal. unfold tmap. simpl. f_equal. rewrite map_map.
        apply map_ext. intros r. rewrite !map_map. apply map_ext. intros c.
        unfold Rdiv. rewrite Rinv_mult. ring.
Qed.

End Rescaling.

Section ScaleRoundTrip.
Import Torch SDF.

Lemma Linear_forward_wf (l : Linear) (x y : tensor) :
  wf_linear l -> Linear_forward l x = Ok y -> wf_tensor y.
Proof.
  intros Hl. unfold Linear_forward.
  destruct (ncols x =? in_features l) eqn:E; [| discriminate].
  apply Nat.eqb_eq in E. intros H.
  destruct (Linear_forward_shape x Hl E) as [y' [Hy [_ [_ Hw]]]].
  unfold Linear_forward in Hy. rewrite E, Nat.eqb_refl in Hy.
  congruence.
Qed.

Lemma run_layers_wf_from (net : SDFNetwork) (inputs : tensor)
  (ls : list Linear) :
  Forall wf_linear ls ->
  forall l x y, wf_tensor x -> run_layers net inputs l ls x = Ok y ->
                wf_tensor y.
Proof.
  induction 1 as [|layer ls Hl Hls IH]; intros l x y Hx; simpl.
  - intros H. inversion H; subst. exact Hx.
  - destruct (if is_skip (self_skip_in net) l then _ else _) as [x1|e];
      simpl; [| discriminate].
    destruct (Linear_forward layer x1) as [x2|e] eqn:E2; simpl;
      [| discriminate].
    apply IH. apply (Linear_forward_wf _ Hl) in E2.
    destruct (l <? self_num_layers net - 2); [apply tmap_wf |]; exact E2.
Qed.

Lemma run_layers_wf (net : SDFNetwork) (inputs : tensor) (ls : list Linear)
  (l : nat) (x y : tensor) :
  Forall wf_linear ls -> ls <> [] ->
  run_layers net inputs l ls x = Ok y -> wf_tensor y.
Proof.
  intros Hls Hne. destruct ls as [|layer ls]; [congruence |].
  inversion Hls as [|? ? Hl Hls']; subst. simpl.
  destruct (if is_skip (self_skip_in net) l then _ else _) as [x1|e];
    simpl; [| discriminate].
  destruct (Linear_forward layer x1) as [x2|e] eqn:E2; simpl;
    [| discriminate].
  apply (run_layers_wf_from net inputs Hls').
  apply (Linear_forward_wf _ Hl) in E2.
  destruct (l <? self_num_layers net - 2); [apply tmap_wf |]; exact E2.
Qed.

Lemma zip_app_map {A : Type} (G H : A -> list R) (l : list A) :
  zip_app (map G l) (map H l) = map (fun x => G x ++ H x) l.
Proof.
  induction l as [|x l IH]; simpl; [reflexivity |]. rewrite IH. reflexivity.
Qed.

(** The rows of a broadcast division are a function of the rows of the
    dividend, and a one-entry row is never mapped to an empty one. *)
Lemma tdiv_rows (t : tensor) (s : tensor01) (d : tensor) :
  tdiv t s = Ok d ->
  exists g, trows d = map g (trows t)
            /\ (scale_nonempty s -> ncols t = 1 -> forall a, g [a] <> []).
Proof.
  unfold tdiv, broadcast. destruct s as [c|v].
  - intros H. inversion H; subst. simpl.
    exists (map (fun a => (a / c)%R)). split; [reflexivity |].
    intros _ _ a. discriminate.
  - destruct (ncols t =? length v) eqn:E1.
    + intros H. inversion H; subst. simpl.
      exists (fun r => zip_with Rdiv r v). split; [reflexivity |].
      apply Nat.eqb_eq in E1. intros _ H1 a. rewrite H1 in E1.
      destruct v as [|c v]; [discriminate |]. discriminate.
    + destruct (length v =? 1) eqn:E2.
      * intros H. inversion H; subst. simpl.
        exists (map (fun a => (a / hd 0 v)%R)). split; [reflexivity |].
        intros _ _ a. discriminate.
      * destruct (ncols t =? 1) eqn:E3; [| discriminate].
        intros H. inversion H; subst. simpl.
        exists (fun r => map (fun c => (hd 0 r / c)%R) v).
        split; [reflexivity |].
        intros Hv _ a. simpl in Hv. destruct v; [congruence | discriminate].
Qed.

(** The last line of [forward] followed by [[:, :1]], under a rescaled
    Scale Vector. *)
Lemma finish_rescale (k : R) (y : tensor) (s : tensor01) :
  wf_tensor y -> scale_nonempty s ->
  (d <- tdiv (cols_to1 y) (scale_by k s) ;;
   r <- cat d (cols_from1 y) ;; Ok (cols_to1 r))
  = (z <- (d <- tdiv (cols_to1 y) s ;;
           r <- cat d (cols_from1 y) ;; Ok (cols_to1 r)) ;;
     Ok (tmap (fun a => (a / k)%R) z)).
Proof.
  intros Hy Hs. rewrite tdiv_rescale.
  destruct (tdiv (cols_to1 y) s) as [d|e] eqn:Hd; simpl; [| reflexivity].
  destruct (tdiv_rows _ _ Hd) as [g [Hg Hne]].
  unfold cat. rewrite (proj1 (tmap_shape _ d)).
  destruct (nrows d =? nrows (cols_from1 y)); simpl; [| reflexivity].
  f_equal. unfold cols_to1, tmap. simpl. f_equal.
  rewrite Hg. simpl. rewrite !map_map.
  rewrite (zip_app_map (fun x => map (fun a => (a / k)%R) (g (firstn 1 x)))
                       (skipn 1)).
  rewrite (zip_app_map (fun x => g (firstn 1 x)) (skipn 1)).
  rewrite !map_map. apply map_ext_in. intros yr Hin.
  unfold wf_tensor in Hy. rewrite Forall_forall in Hy. specialize (Hy _ Hin).
  destruct yr as [|a rest].
  - simpl. rewrite !app_nil_r. destruct (g []); reflexivity.
  - simpl in Hy. specialize (Hne Hs).
    assert (H1 : ncols (cols_to1 y) = 1).
    { simpl. rewrite <- Hy. reflexivity. }
    specialize (Hne H1 a). simpl.
    destruct (g [a]) as [|b bs]; [congruence | reflexivity].
Qed.

Lemma sdf_rescale_gen (k : R) (net : SDFNetwork) (x : tensor)
  (features : option tensor) :
  k <> 0%R ->
  Forall wf_linear (layers net) -> layers net <> [] ->
  scale_nonempty (self_scale net) ->
  sdf (with_scale net (scale_by k (self_scale net)))
      (tmap (fun a => (a / k)%R) x) features
  = (y <- sdf net x features ;; Ok (tmap (fun a => (a / k)%R) y)).
Proof.
  intros Hk Hls Hne Hs. unfold sdf, forward. simpl.
  rewrite (tmul_rescale Hk).
  destruct (tmul x (self_scale net)) as [inputs|e]; simpl; [| reflexivity].
  destruct (match features with Some f => _ | None => _ end) as [x0|e];
    simpl; [| reflexivity].
  rewrite (run_layers_agree
             (with_scale net (scale_by k (self_scale net))) net inputs
             (layers net) eq_refl eq_refl eq_refl).
  destruct (run_layers net inputs 0 (layers net) x0) as [y|e] eqn:Hy; simpl;
    [| reflexivity].
  apply (run_layers_wf _ _ _ _ Hls Hne) in Hy.
  pose proof (@finish_rescale k y (self_scale net) Hy Hs) as Hfin.
  destruct (tdiv (cols_to1 y) (scale_by k (self_scale net))) as [d'|e'];
    destruct (tdiv (cols_to1 y) (self_scale net)) as [d|e]; simpl in *;
    try (destruct (cat d' (cols_from1 y))); try (destruct (cat d (cols_from1 y)));
    simpl in *; congruence.
Qed.

Lemma flat_net_layers :
  layers Samples.flat_net
  = [mkLinear 6 1 [[0; 0; 0; 0; 0; 0]%R] [0%R] None;
     mkLinear 1 1 [[0%R]] [0%R] None;
     mkLinear 1 1 [[0%R]] [1%R] None].
Proof. reflexivity. Qed.

Lemma flat_net_wf :
  Forall wf_linear (layers Samples.flat_net) /\ layers Samples.flat_net <> [].
Proof.
  rewrite flat_net_layers. split; [| discriminate].
  repeat constructor.
Qed.

(** The network of [Samples.flat_net] returns the distance 1 at the
    origin: its last layer has zero weights and bias 1, its Scale Vector
    is (1, 1, 1). *)
Lemma flat_net_sdf_origin :
  sdf Samples.flat_net Samples.origin None = Ok (mkT 1 [[1%R]]).
Proof.
  pose proof flat_net_layers as Hl.
  assert (Hn : self_num_layers Samples.flat_net = 4) by reflexivity.
  assert (Hs : self_skip_in Samples.flat_net = [0%Z]) by reflexivity.
  assert (Hc : self_scale Samples.flat_net = Vec1 [1; 1; 1]%R) by reflexivity.
  assert (He : embed_fn_fine Samples.flat_net = fun x => x) by reflexivity.
  assert (Hf : self_feature_dim Samples.flat_net = 0) by reflexivity.
  remember Samples.flat_net as net.
  unfold sdf, forward. rewrite Hl, Hc, He, Hf.
  Local Opaque softplus.
  repeat (cbn; rewrite ?Hs, ?Hn, ?He).
  unfold cols_to1. cbn.
  match goal with
  | |- Ok (mkT _ [[?v]]) = _ => replace v with 1%R by lra
  end.
  reflexivity.
Qed.

(** C4, as amended. When the Scale Vector is multiplied by [k] and the
    points are divided by [k], the stack sees the same scaled points and
    the distance output is the original one divided by [k]. *)
Theorem sdf_rescale (k : R) (net : SDFNetwork) (x : tensor)
  (features : option tensor) :
  (0 < k)%R ->
  Forall wf_linear (layers net) -> layers net <> [] ->
  scale_nonempty (self_scale net) ->
  tmul (tmap (fun a => (a / k)%R) x) (scale_by k (self_scale net))
  = tmul x (self_scale net)
  /\ sdf (with_scale net (scale_by k (self_scale net)))
         (tmap (fun a => (a / k)%R) x) features
     = (y <- sdf net x features ;; Ok (tmap (fun a => (a / k)%R) y)).
Proof.
  intros Hk Hls Hne Hs.
  assert (Hk0 : k <> 0%R) by lra.
  split; [apply tmul_rescale; exact Hk0 | apply sdf_rescale_gen; assumption].
Qed.

Lemma sdf_rescale_witness :
  sdf (with_scale Samples.flat_net
         (scale_by 2 (self_scale Samples.flat_net)))
      (tmap (fun a => (a / 2)%R) Samples.origin) None
  = (y <- sdf Samples.flat_net Samples.origin None ;;
     Ok (tmap (fun a => (a / 2)%R) y)).
Proof.
  apply (@sdf_rescale 2 Samples.flat_net Samples.origin None).
  - lra.
  - exact (proj1 flat_net_wf).
  - exact (proj2 flat_net_wf).
  - simpl. discriminate.
Defined.

(** C4, as stated, fails: at the origin the network of
    [Samples.flat_net] returns the distance 1, and the network with the
    Scale Vector doubled, evaluated at the halved point, returns 1/2. *)
Lemma sdf_rescale_changes_distance :
  let net := Samples.flat_net in
  let net2 := with_scale net (scale_by 2 (self_scale net)) in
  sdf net Samples.origin None = Ok (mkT 1 [[1%R]])
  /\ sdf net2 (tmap (fun a => (a / 2)%R) Samples.origin) None
     = Ok (mkT 1 [[(1 / 2)%R]])
  /\ sdf net2 (tmap (fun a => (a / 2)%R) Samples.origin) None
     <> sdf net Samples.origin None.
Proof.
  intros net net2.
  assert (H1 : sdf net Samples.origin None = Ok (mkT 1 [[1%R]]))
    by exact flat_net_sdf_origin.
  assert (H2 : sdf net2 (tmap (fun a => (a / 2)%R) Samples.origin) None
               = Ok (mkT 1 [[(1 / 2)%R]])).
  { unfold net2. rewrite sdf_rescale_gen.
    - fold net. rewrite H1. reflexivity.
    - lra.
    - exact (proj1 flat_net_wf).
    - exact (proj2 flat_net_wf).
    - simpl. discriminate. }
  split; [exact H1 |]. split; [exact H2 |].
  rewrite H1, H2. intros H. inversion H. lra.
Qed.

End ScaleRoundTrip.

(** ** Dimensional consistency of the SDF network *)

Section SDFShapes.
Import Torch SDF.

Lemma broadcast_fits (op : R -> R -> R) (x : tensor) (s : tensor01) :
  wf_tensor x -> scale_fits s (ncols x) ->
  exists t, broadcast op x s = Ok t
            /\ ncols t = ncols x /\ nrows t = nrows x /\ wf_tensor t.
Proof.
  intros Hx Hs. unfold broadcast. destruct s as [c|v].
  - eexists. split; [reflexivity |].
    destruct (tmap_shape (fun a => op a c) x) as [Hr Hc].
    repeat split; try assumption. apply tmap_wf. exact Hx.
  - simpl in Hs. destruct (ncols x =? length v) eqn:E1.
    + apply Nat.eqb_eq in E1. eexists. split; [reflexivity |].
      unfold nrows, wf_tensor. simpl. rewrite length_map. repeat split.
      rewrite Forall_map. eapply Forall_impl; [| exact Hx]. simpl.
      intros r Hr. rewrite length_zip_with, Hr, E1. apply Nat.min_id.
    + apply Nat.eqb_neq in E1. destruct Hs as [Hs|Hs]; [congruence |].
      rewrite Hs. simpl. eexists. split; [reflexivity |].
      destruct (tmap_shape (fun a => op a (hd 0%R v)) x) as [Hr Hc].
      repeat split; try assumption. apply tmap_wf. exact Hx.
Qed.

Lemma chain_build (cfg : Config) (E : nat) (dims : list nat) (k a : nat) :
  chain (skip_in cfg) E a (nth a dims 0)
        (map (build_layer cfg E dims) (seq a k)) (nth (a + k) dims 0).
Proof.
  revert a; induction k as [|k IH]; intros a; simpl.
  - rewrite Nat.add_0_r. reflexivity.
  - destruct (build_layer_shape cfg E dims a) as [Hi [Ho _]].
    split; [exact Hi |]. rewrite Ho.
    replace (a + 1) with (S a) by lia.
    replace (a + S k) with (S a + k) by lia. apply IH.
Qed.

Lemma chain_built (ge : get_embedder_t) (cfg : Config) :
  let E := input_ch (the_embedder ge cfg) in
  chain (skip_in cfg) E 0 (E + feature_dim cfg) (built_layers ge cfg)
        (d_out cfg).
Proof.
  intros E. unfold built_layers. fold E.
  pose proof (chain_build cfg E (make_dims E cfg)
                (length (make_dims E cfg) - 1) 0) as H.
  replace (nth 0 (make_dims E cfg) 0) with (E + feature_dim cfg) in H
    by reflexivity.
  replace (nth (0 + (length (make_dims E cfg) - 1)) (make_dims E cfg) 0)
    with (d_out cfg) in H; [exact H |].
  rewrite length_make_dims. unfold make_dims.
  replace (0 + (Z.to_nat (n_layers cfg) + 2 - 1))
    with (S (Z.to_nat (n_layers cfg))) by lia.
  simpl. rewrite app_nth2; rewrite repeat_length; [| lia].
  rewrite Nat.sub_diag. reflexivity.
Qed.

Lemma load_layers_wf (th : params) (ls : list LinearInit) (l : nat) :
  Forall wf_linear (load_layers th l ls).
Proof.
  revert l; induction ls as [|li ls IH]; intros l; simpl; constructor.
  - apply Linear_of_wf.
  - apply IH.
Qed.

(** A tensor of the right width runs through the whole stack. *)
Lemma run_layers_shape (net : SDFNetwork) (th : params) (inputs : tensor)
  (E B : nat) (ls : list LinearInit) :
  wf_tensor (embed_fn_fine net inputs) ->
  ncols (embed_fn_fine net inputs) = E ->
  nrows (embed_fn_fine net inputs) = B ->
  forall l x wout,
    wf_tensor x -> nrows x = B ->
    chain (self_skip_in net) E l (ncols x) ls wout ->
    exists y, run_layers net inputs l (load_layers th l ls) x = Ok y
              /\ wf_tensor y /\ nrows y = B /\ ncols y = wout.
Proof.
  intros Hew Hec Her.
  induction ls as [|li ls IH]; intros l x wout Hx Hr Hch; simpl in *.
  - exists x. repeat split; assumption.
  - destruct Hch as [Hin Hch].
    assert (Hpre : exists x1,
               (if is_skip (self_skip_in net) l
                then c <- cat x (embed_fn_fine net inputs) ;;
                     Ok (tmap (fun a => (a / sqrt 2)%R) c)
                else Ok x) = Ok x1
               /\ wf_tensor x1 /\ nrows x1 = B /\ ncols x1 = in_dim li).
    { destruct (is_skip (self_skip_in net) l).
      - destruct (@cat_shape x (embed_fn_fine net inputs)) as [c [Hc [Hcr [Hcc Hcw]]]];
          [congruence |].
        rewrite Hc. simpl. eexists. split; [reflexivity |].
        destruct (tmap_shape (fun a => (a / sqrt 2)%R) c) as [Hr' Hc'].
        split; [apply tmap_wf; apply Hcw; assumption |].
        split; [congruence |]. rewrite Hc', Hcc, Hin, Hec. reflexivity.
      - exists x. repeat split; try assumption. symmetry; exact Hin. }
    destruct Hpre as [x1 [Hx1 [Hw1 [Hr1 Hc1]]]]. rewrite Hx1. simpl.
    destruct (Linear_of_wf th (wn li) l (in_dim li) (out_dim li))
      as [Hlw [Hli Hlo]].
    destruct (@Linear_forward_shape
                (Linear_of th (wn li) l (in_dim li) (out_dim li)) x1 Hlw)
      as [x2 [Hx2 [Hr2 [Hc2 Hw2]]]]; [congruence |].
    rewrite Hx2. simpl.
    apply IH.
    + destruct (l <? self_num_layers net - 2); [apply tmap_wf |]; exact Hw2.
    + destruct (l <? self_num_layers net - 2);
        [rewrite (proj1 (tmap_shape _ _)) |]; congruence.
    + destruct (l <? self_num_layers net - 2);
        [rewrite (proj2 (tmap_shape _ _)) |]; rewrite Hc2, Hlo; exact Hch.
Qed.

Lemma cols_to1_shape (y : tensor) :
  wf_tensor y ->
  wf_tensor (cols_to1 y) /\ nrows (cols_to1 y) = nrows y
  /\ ncols (cols_to1 y) = Nat.min 1 (ncols y).
Proof.
  intros Hy. unfold wf_tensor, nrows, cols_to1. simpl.
  rewrite length_map. repeat split.
  rewrite Forall_map. eapply Forall_impl; [| exact Hy]. simpl.
  intros r Hr. destruct r; simpl in *; rewrite <- Hr; reflexivity.
Qed.

Lemma cols_from1_shape (y : tensor) :
  wf_tensor y ->
  wf_tensor (cols_from1 y) /\ nrows (cols_from1 y) = nrows y
  /\ ncols (cols_from1 y) = ncols y - 1.
Proof.
  intros Hy. unfold wf_tensor, nrows, cols_from1. simpl.
  rewrite length_map. repeat split.
  rewrite Forall_map. eapply Forall_impl; [| exact Hy]. simpl.
  intros r Hr. destruct r; simpl in *; rewrite <- Hr; simpl; lia.
Qed.

(** Up to its last line, [forward] of a constructed network succeeds on
    a well-shaped batch and holds a tensor of shape [B, d_out]. *)
Lemma forward_stack_gen (ge : get_embedder_t) (cfg : Config) (ini : SDFInit)
  (th : params) (x : tensor) (features : option tensor) :
  SDFNetwork_init ge cfg = Ok ini ->
  embeds (embed (the_embedder ge cfg)) (d_in cfg)
         (input_ch (the_embedder ge cfg)) ->
  wf_tensor x -> ncols x = d_in cfg ->
  scale_fits (scale cfg) (d_in cfg) ->
  features_fit features (nrows x) (feature_dim cfg) ->
  exists y, wf_tensor y /\ nrows y = nrows x /\ ncols y = d_out cfg
            /\ forward (load th ini) x features
               = (d <- tdiv (cols_to1 y) (scale cfg) ;; cat d (cols_from1 y)).
Proof.
  intros Hok Hemb Hx Hxc Hsc Hft.
  destruct (SDFNetwork_init_inv _ _ Hok) as [Hv [Ha Hl]].
  unfold forward, load. rewrite Ha, Hl. simpl.
  destruct (@broadcast_fits Rmult x (scale cfg) Hx) as [inputs [Hm [Hic [Hir Hiw]]]];
    [rewrite Hxc; exact Hsc |].
  unfold tmul. rewrite Hm. simpl.
  destruct (Hemb inputs Hiw) as [Hew [Hec Her]]; [congruence |].
  set (E := input_ch (the_embedder ge cfg)) in *.
  set (emb := embed (the_embedder ge cfg)) in *.
  assert (Hcat : exists x0,
             match features with
             | Some f => cat (emb inputs) f
             | None => cat (emb inputs) (zeros (nrows inputs) (feature_dim cfg))
             end = Ok x0
             /\ wf_tensor x0 /\ nrows x0 = nrows x
             /\ ncols x0 = E + feature_dim cfg).
  { destruct features as [f|]; simpl in Hft.
    - destruct Hft as [Hfw [Hfr Hfc]].
      destruct (@cat_shape (emb inputs) f) as [c [Hc [Hcr [Hcc Hcw]]]];
        [congruence |].
      exists c. split; [exact Hc |]. split; [apply Hcw; assumption |].
      split; congruence.
    - destruct (zeros_shape (nrows inputs) (feature_dim cfg)) as [Hzr [Hzc Hzw]].
      destruct (@cat_shape (emb inputs) (zeros (nrows inputs) (feature_dim cfg)))
        as [c [Hc [Hcr [Hcc Hcw]]]]; [congruence |].
      exists c. split; [exact Hc |]. split; [apply Hcw; assumption |].
      split; congruence. }
  destruct Hcat as [x0 [Hx0 [Hw0 [Hr0 Hc0]]]]. rewrite Hx0. simpl.
  set (net := mkSDFNetwork _ _ _ _ _ _ _ _ _).
  pose proof (chain_built ge cfg) as Hch. simpl in Hch. fold E in Hch.
  destruct (@run_layers_shape net th inputs E (nrows x) (built_layers ge cfg))
    with (l := 0) (x := x0) (wout := d_out cfg)
    as [y [Hy [Hyw [Hyr Hyc]]]]; try assumption.
  - simpl. congruence.
  - simpl. rewrite Hc0. exact Hch.
  - exists y. repeat split; try assumption.
    rewrite Hy. reflexivity.
Qed.


(** C2 on the default configuration. With a Scale Vector of three
    components (the default is [1.0, 1.0, 2.0]) the first output column
    divided by the Scale Vector broadcasts to three columns, so [forward]
    on a batch of shape [B, 3] returns a tensor of shape [B, d_out + 2],
    not [B, d_out]. *)
Theorem forward_shape_scale_vector (ge : get_embedder_t) (cfg : Config)
  (ini : SDFInit) (th : params) (x : tensor) (features : option tensor)
  (v : list R) :
  SDFNetwork_init ge cfg = Ok ini ->
  embeds (embed (the_embedder ge cfg)) (d_in cfg)
         (input_ch (the_embedder ge cfg)) ->
  wf_tensor x -> ncols x = d_in cfg -> d_in cfg = 3 -> 1 <= nrows x ->
  scale cfg = Vec1 v -> length v = 3 ->
  1 <= d_out cfg ->
  features_fit features (nrows x) (feature_dim cfg) ->
  exists out,
    forward (load th ini) x features = Ok out
    /\ wf_tensor out /\ shape out = (nrows x, d_out cfg + 2).
Proof.
  intros Hok Hemb Hx Hxc Hd3 HB Hs Hv Hd Hft.
  destruct (@forward_stack_gen ge cfg ini th x features Hok Hemb Hx Hxc)
    as [y [Hyw [Hyr [Hyc Hfw]]]];
    [rewrite Hs; simpl; left; congruence | exact Hft |].
  rewrite Hs in Hfw.
  destruct (cols_to1_shape Hyw) as [Haw [Har Hac]].
  destruct (cols_from1_shape Hyw) as [Hbw [Hbr Hbc]].
  assert (Ha1 : ncols (cols_to1 y) = 1) by lia.
  unfold tdiv, broadcast in Hfw. rewrite Ha1, Hv in Hfw. simpl in Hfw.
  set (d := mkT 3 _) in Hfw.
  assert (Hdw : wf_tensor d).
  { unfold d, wf_tensor. simpl. rewrite Forall_map. apply Forall_forall.
    intros r _. rewrite length_map. exact Hv. }
  assert (Hdr : nrows d = nrows y).
  { unfold d, nrows. simpl. rewrite !length_map. reflexivity. }
  destruct (@cat_shape d (cols_from1 y)) as [out [Hout [Hor [Hoc How]]]];
    [congruence |].
  exists out. rewrite Hfw. split; [exact Hout |].
  split; [apply How; assumption |].
  unfold shape. f_equal; [congruence |].
  rewrite Hoc, Hbc, Hyc. unfold d. simpl. lia.
Qed.

(** The defect on a concrete input: the network of [Samples.wide_net]
    has [d_out = 2] and the default Scale Vector; on one point its
    [forward] returns four columns, the distance divided by each of the
    three scale components followed by the single feature column. *)
Lemma forward_wide_net_origin :
  d_out Samples.wide_cfg = 2
  /\ forward Samples.wide_net Samples.origin None
     = Ok (mkT 4 [[1; 1; 1 / 2; 1]%R]).
Proof.
  split; [reflexivity |].
  assert (Hl : layers Samples.wide_net
               = [mkLinear 6 1 [[0; 0; 0; 0; 0; 0]%R] [0%R] None;
                  mkLinear 1 1 [[0%R]] [0%R] None;
                  mkLinear 1 2 [[0%R]; [0%R]] [1%R; 1%R] None])
    by reflexivity.
  assert (Hn : self_num_layers Samples.wide_net = 4) by reflexivity.
  assert (Hs : self_skip_in Samples.wide_net = [0%Z]) by reflexivity.
  assert (Hc : self_scale Samples.wide_net = Vec1 [1; 1; 2]%R) by reflexivity.
  assert (He : embed_fn_fine Samples.wide_net = fun x => x) by reflexivity.
  assert (Hf : self_feature_dim Samples.wide_net = 0) by reflexivity.
  remember Samples.wide_net as net.
  unfold forward. rewrite Hl, Hc, He, Hf.
  Local Opaque softplus.
  repeat (cbn; rewrite ?Hs, ?Hn, ?He).
  match goal with
  | |- Ok (mkT _ [[?a; ?b; ?c; ?d]]) = _ =>
      replace a with 1%R by lra; replace b with 1%R by lra;
      replace c with (1 / 2)%R by lra; replace d with 1%R by lra
  end.
  reflexivity.
Qed.

Lemma forward_shape_scale_vector_witness :
  exists out,
    forward (load Samples.unit_params
               (built Samples.id_embedder (Samples.sdf_cfg 8 [4%Z])))
            Samples.origin None = Ok out
    /\ wf_tensor out /\ shape out = (1, 4).
Proof.
  apply (@forward_shape_scale_vector Samples.id_embedder
           (Samples.sdf_cfg 8 [4%Z]) _ Samples.unit_params Samples.origin None
           [1; 1; 2]%R).
  - apply SDFNetwork_init_ok. reflexivity.
  - intros t Ht Hc. repeat split; assumption.
  - repeat constructor.
  - reflexivity.
  - reflexivity.
  - unfold Torch.nrows. simpl. lia.
  - reflexivity.
  - reflexivity.
  - simpl. lia.
  - exact I.
Defined.

End SDFShapes.

(** ** The rendering network *)

Section RenderingWidth.
Import Torch Rendering.

Lemma make_dims_with_mode (ge : get_embedder_t) (cfg : Config) (m : string) :
  make_dims ge (with_mode cfg m) = make_dims ge cfg.
Proof. reflexivity. Qed.

Lemma make_dims_head (ge : get_embedder_t) (cfg : Config) :
  exists o rest,
    make_dims ge cfg = init_first_width ge cfg :: o :: rest
    /\ last (o :: rest) 0%Z = Z.of_nat (d_out cfg).
Proof.
  unfold make_dims, init_first_width.
  set (n := Z.to_nat (n_layers cfg)).
  assert (H : exists o rest,
             repeat (Z.of_nat (d_hidden cfg)) n ++ [Z.of_nat (d_out cfg)]
             = o :: rest
             /\ last (o :: rest) 0%Z = Z.of_nat (d_out cfg)).
  { destruct (repeat (Z.of_nat (d_hidden cfg)) n ++ [Z.of_nat (d_out cfg)])
      as [|o rest] eqn:E.
    - apply app_eq_nil in E. destruct E as [_ E]. discriminate.
    - exists o, rest. split; [reflexivity |]. rewrite <- E. apply last_last. }
  destruct H as [o [rest [H Hl]]]. exists o, rest. rewrite H.
  destruct (0 <? multires_view cfg)%Z; split;
    try exact Hl; f_equal; lia.
Qed.

Lemma RenderingNetwork_init_first_width_gen (ge : get_embedder_t)
  (cfg : Config) (th : params) (net : RenderingNetwork) :
  RenderingNetwork_init ge cfg th = Ok net ->
  exists w, first_width net = Some w
            /\ Z.of_nat w = init_first_width ge cfg.
Proof.
  unfold RenderingNetwork_init.
  destruct (make_dims_head ge cfg) as [o [rest [Hd _]]]. rewrite Hd.
  cbn [build_lins]. unfold nn_Linear at 1.
  destruct (Z.ltb_spec (init_first_width ge cfg) 0) as [Hneg|Hpos];
    simpl; [discriminate |].
  destruct (o <? 0)%Z; simpl; [discriminate |].
  destruct (match rest with [] => _ | _ :: _ => _ end) as [ls|e]; simpl;
    [| discriminate].
  intros H. inversion H; subst. unfold first_width. simpl.
  eexists. split; [reflexivity |]. lia.
Qed.

(** C6, as amended. The first layer's input width is
    [d_in + d_feature + image_feature_dim], plus [input_ch - 3] when a
    view embedding is configured; the mode selector does not enter it:
    the same configuration under any other mode constructs a network
    whose first layer has the same input width. *)
Theorem first_layer_width_ignores_mode (ge : get_embedder_t) (cfg : Config)
  (th : params) (net : RenderingNetwork) (m : string) :
  RenderingNetwork_init ge cfg th = Ok net ->
  (exists w, first_width net = Some w
             /\ Z.of_nat w = init_first_width ge cfg)
  /\ (exists net', RenderingNetwork_init ge (with_mode cfg m) th = Ok net'
                   /\ first_width net' = first_width net).
Proof.
  intros H. split; [eapply RenderingNetwork_init_first_width_gen; exact H |].
  unfold RenderingNetwork_init in *. rewrite make_dims_with_mode.
  change (weight_norm (with_mode cfg m)) with (weight_norm cfg).
  destruct (build_lins th (weight_norm cfg) 0 (make_dims ge cfg)) as [ls|e];
    simpl in *; [| discriminate].
  inversion H; subst. eexists. split; [reflexivity | reflexivity].
Qed.

Lemma first_layer_width_ignores_mode_witness :
  exists net net',
    RenderingNetwork_init Samples.id_embedder (Samples.render_cfg "idr" 3)
                          Samples.unit_params = Ok net
    /\ first_width net = Some 11
    /\ RenderingNetwork_init Samples.id_embedder
         (with_mode (Samples.render_cfg "idr" 3) "no_normal")
         Samples.unit_params = Ok net'
    /\ first_width net' = Some 11.
Proof.
  eexists.
  assert (H : RenderingNetwork_init Samples.id_embedder
                (Samples.render_cfg "idr" 3) Samples.unit_params = Ok _)
    by reflexivity.
  destruct (@first_layer_width_ignores_mode Samples.id_embedder
              (Samples.render_cfg "idr" 3) Samples.unit_params _ "no_normal" H)
    as [_ [net' [H1 H2]]].
  exists net'. split; [exact H |]. split; [reflexivity |].
  split; [exact H1 |]. rewrite H2. reflexivity.
Defined.

(** C6, as stated, fails: the networks constructed for the modes "idr"
    and "no_view_dir" from otherwise equal arguments ([d_in] = 3,
    feature widths 4 and 4) have the same first layer width 11, whereas
    the width described by the specification, with 3-wide view
    directions and normals, is 17 for "idr" and 14 for "no_view_dir". *)
Lemma first_width_same_for_idr_and_no_view_dir :
  exists n1 n2,
    RenderingNetwork_init Samples.id_embedder (Samples.render_cfg "idr" 3)
                          Samples.unit_params = Ok n1
    /\ RenderingNetwork_init Samples.id_embedder
         (Samples.render_cfg "no_view_dir" 3) Samples.unit_params = Ok n2
    /\ first_width n1 = Some 11 /\ first_width n2 = Some 11
    /\ spec_first_width (Samples.render_cfg "idr" 3) 3 3 0 = 17%Z
    /\ spec_first_width (Samples.render_cfg "no_view_dir" 3) 3 3 0 = 14%Z.
Proof.
  eexists. eexists.
  split; [reflexivity |]. split; [reflexivity |].
  repeat split; reflexivity.
Qed.

End RenderingWidth.

Section RenderingForward.
Import Torch Rendering.

Lemma cat_list_shape (B : nat) (ts : list tensor) :
  forall t, wf_tensor t -> nrows t = B ->
    Forall wf_tensor ts -> Forall (fun u => nrows u = B) ts ->
    exists x, cat_list t ts = Ok x
              /\ wf_tensor x /\ nrows x = B /\ ncols x = total_width t ts.
Proof.
  induction ts as [|u ts IH]; intros t Ht Hr Hws Hrs; simpl.
  - exists t. repeat split; assumption.
  - inversion Hws as [|? ? Hu Hws']; inversion Hrs as [|? ? Hur Hrs']; subst.
    destruct (@cat_shape t u) as [c [Hc [Hcr [Hcc Hcw]]]]; [congruence |].
    rewrite Hc. simpl.
    destruct (IH c (Hcw Ht Hu) Hcr Hws' Hrs') as [x [Hx [Hxw [Hxr Hxc]]]].
    exists x. repeat split; try assumption.
    rewrite Hxc. unfold total_width. simpl. rewrite Hcc. reflexivity.
Qed.

Lemma build_lins_cons (th : params) (wn : bool) (l : nat) (d o : Z)
  (rest : list Z) :
  build_lins th wn l (d :: o :: rest)
  = (layer <- nn_Linear th wn l d o ;;
     ls <- build_lins th wn (S l) (o :: rest) ;;
     Ok (layer :: ls)).
Proof. reflexivity. Qed.

(** The layers [build_lins] creates chain along [dims]. *)
Lemma build_lins_spec (th : params) (wn : bool) (dims : list Z) :
  forall l lins, build_lins th wn l dims = Ok lins ->
    length lins = length dims - 1
    /\ forall i, i < length lins ->
         nth_error lins i
         = Some (Linear_of th wn (l + i) (Z.to_nat (nth i dims 0%Z))
                           (Z.to_nat (nth (S i) dims 0%Z))).
Proof.
  induction dims as [|d dims IH]; intros l lins H.
  - inversion H; subst. split; [reflexivity |]. simpl. intros i Hi. lia.
  - destruct dims as [|o rest].
    + inversion H; subst. split; [reflexivity |]. simpl. intros i Hi. lia.
    + rewrite build_lins_cons in H. unfold nn_Linear in H.
      destruct ((d <? 0)%Z || (o <? 0)%Z); [discriminate |].
      cbn [bind] in H.
      destruct (build_lins th wn (S l) (o :: rest)) as [ls|e] eqn:E;
        [| discriminate].
      cbn [bind] in H. inversion H; subst.
      destruct (IH (S l) ls E) as [Hlen Hnth].
      split; [simpl in *; lia |].
      intros [|i] Hi.
      * simpl. rewrite Nat.add_0_r. reflexivity.
      * simpl in Hi. cbn [nth_error].
        rewrite Hnth by lia. replace (S l + i) with (l + S i) by lia.
        reflexivity.
Qed.


Lemma RenderingNetwork_init_inv (ge : get_embedder_t) (cfg : Config)
  (th : params) (net : RenderingNetwork) :
  RenderingNetwork_init ge cfg th = Ok net ->
  self_mode net = mode cfg
  /\ self_squeeze_out net = squeeze_out cfg
  /\ num_layers net = length (make_dims ge cfg)
  /\ build_lins th (weight_norm cfg) 0 (make_dims ge cfg) = Ok (lin net).
Proof.
  unfold RenderingNetwork_init.
  destruct (build_lins th (weight_norm cfg) 0 (make_dims ge cfg)) as [ls|e];
    simpl; [| discriminate].
  intros H. inversion H; subst. simpl. repeat split; reflexivity.
Qed.

Lemma RenderingNetwork_init_embedview (ge : get_embedder_t) (cfg : Config)
  (th : params) (net : RenderingNetwork) :
  RenderingNetwork_init ge cfg th = Ok net ->
  embedview_fn net
  = if (0 <? multires_view cfg)%Z
    then Some (embed (ge (multires_view cfg) None)) else None.
Proof.
  unfold RenderingNetwork_init.
  destruct (build_lins th (weight_norm cfg) 0 (make_dims ge cfg)) as [ls|e];
    simpl; [| discriminate].
  intros H. inversion H; subst. reflexivity.
Qed.



Lemma make_dims_shape (ge : get_embedder_t) (cfg : Config) :
  length (make_dims ge cfg) = Z.to_nat (n_layers cfg) + 2
  /\ nth (Z.to_nat (n_layers cfg) + 1) (make_dims ge cfg) 0%Z
     = Z.of_nat (d_out cfg).
Proof.
  unfold make_dims. set (n := Z.to_nat (n_layers cfg)).
  assert (Hl : length (repeat (Z.of_nat (d_hidden cfg)) n
                       ++ [Z.of_nat (d_out cfg)]) = n + 1).
  { rewrite length_app, repeat_length. reflexivity. }
  assert (Hn : nth n (repeat (Z.of_nat (d_hidden cfg)) n
                      ++ [Z.of_nat (d_out cfg)]) 0%Z = Z.of_nat (d_out cfg)).
  { rewrite app_nth2; rewrite repeat_length; [| lia].
    rewrite Nat.sub_diag. reflexivity. }
  replace (n + 1) with (S n) by lia.
  destruct (0 <? multires_view cfg)%Z; simpl; rewrite Hl; split;
    try lia; exact Hn.
Qed.






End RenderingForward.

(** ** The NeRF network *)

Section NeRFForward.
Import Torch NeRFNet.

(** C8. [forward] of a NeRF whose view-direction conditioning is
    disabled never returns: whatever the inputs, it raises, and once the
    point layers have run the exception is the [AssertionError] of
    [assert False]. *)
Theorem forward_without_viewdirs (net : NeRF) (input_pts input_views : tensor) :
  self_use_viewdirs net = false ->
  (exists e, forward net input_pts input_views = Raise e)
  /\ (forall out, forward net input_pts input_views <> Ok out)
  /\ (forall h,
        run_pts net
          (match embed_fn net with Some f => f input_pts | None => input_pts end)
          0 (pts_linears net)
          (match embed_fn net with Some f => f input_pts | None => input_pts end)
        = Ok h ->
        forward net input_pts input_views = Raise AssertionError).
Proof.
  intros Hv. unfold forward. rewrite Hv.
  destruct (run_pts net _ 0 (pts_linears net) _) as [h|e]; simpl.
  - split; [eexists; reflexivity |]. split; [discriminate | reflexivity].
  - split; [eexists; reflexivity |]. split; discriminate.
Qed.

Lemma forward_without_viewdirs_witness :
  exists e,
    forward (NeRF_init Samples.id_embedder Samples.nerf_default
                       Samples.unit_params)
            Samples.row3 Samples.row3 = Raise e.
Proof.
  apply (@forward_without_viewdirs
           (NeRF_init Samples.id_embedder Samples.nerf_default
                      Samples.unit_params)
           Samples.row3 Samples.row3).
  reflexivity.
Defined.

End NeRFForward.

(** ** The variance network *)

Section VarianceForward.
Import Torch Variance.
Open Scope R_scope.




End VarianceForward.

(** * Further properties of the constructors and forward passes *)

(** ** The SDF layer stack: widths and initialisation of every layer *)

Section SDFStack.
Import Torch SDF.

Lemma make_dims_nth (E : nat) (cfg : Config) (l : nat) :
  nth l (make_dims E cfg) 0
  = if l =? 0 then E + feature_dim cfg
    else if l <=? Z.to_nat (n_layers cfg) then d_hidden cfg
    else if l =? Z.to_nat (n_layers cfg) + 1 then d_out cfg
    else 0.
Proof.
  unfold make_dims. set (N := Z.to_nat (n_layers cfg)).
  destruct l as [|l]; [reflexivity |].
  cbn [app nth]. change (S l =? 0) with false. cbv iota.
  destruct (Nat.leb_spec (S l) N) as [Hle|Hgt].
  - rewrite app_nth1 by (rewrite repeat_length; lia).
    rewrite (nth_indep _ 0 (d_hidden cfg)) by (rewrite repeat_length; lia).
    apply nth_repeat.
  - rewrite app_nth2 by (rewrite repeat_length; lia).
    rewrite repeat_length.
    destruct (Nat.eqb_spec (S l) (N + 1)) as [He|Hne].
    + replace (l - N) with 0 by lia. reflexivity.
    + destruct (l - N) as [|[|k]] eqn:Hk; try reflexivity. lia.
Qed.

Lemma built_layer_inv (ge : get_embedder_t) (cfg : Config) (ini : SDFInit)
  (l : nat) (lin : LinearInit) :
  SDFNetwork_init ge cfg = Ok ini ->
  nth_error (i_layers ini) l = Some lin ->
  let E := input_ch (the_embedder ge cfg) in
  valid_skip (skip_in cfg) (n_layers cfg)
  /\ a_embedded_input_dim (i_attrs ini) = E
  /\ lin = build_layer cfg E (make_dims E cfg) l
  /\ l <= Z.to_nat (n_layers cfg)
  /\ length (make_dims E cfg) - 2 = Z.to_nat (n_layers cfg).
Proof.
  intros Hok Hnth E.
  destruct (SDFNetwork_init_inv _ _ Hok) as [Hv [Ha Hl]].
  rewrite Hl in Hnth. apply built_layers_nth in Hnth.
  destruct Hnth as [Hlin Hlt]. fold E in Hlin.
  split; [exact Hv |]. split; [rewrite Ha; reflexivity |].
  split; [exact Hlin |]. split; [lia |].
  rewrite length_make_dims. lia.
Qed.

(** X1. The widths of every layer of a constructed stack. *)
Theorem sdf_layer_widths (ge : get_embedder_t) (cfg : Config) (ini : SDFInit)
  (l : nat) (lin : LinearInit) :
  SDFNetwork_init ge cfg = Ok ini ->
  nth_error (i_layers ini) l = Some lin ->
  let E := a_embedded_input_dim (i_attrs ini) in
  let N := Z.to_nat (n_layers cfg) in
  in_dim lin
  = (if l =? 0 then E + feature_dim cfg else d_hidden cfg)
    + (if is_skip (skip_in cfg) l then E else 0)
  /\ out_dim lin = (if l <? N then d_hidden cfg else d_out cfg)
  /\ wn lin = weight_norm cfg
  /\ ((multires cfg <= 0)%Z -> E = d_in cfg)
  /\ (l = N -> is_skip (skip_in cfg) l = false).
Proof.
  intros Hok Hnth E N.
  destruct (built_layer_inv _ _ _ Hok Hnth) as [Hv [HE [Hlin [Hle Hlen]]]].
  fold E in HE. rewrite <- HE in Hlin. fold N in Hle.
  pose proof (valid_skip_depth Hv) as Hn.
  destruct (build_layer_shape cfg E (make_dims E cfg) l) as [Hi [Ho Hw]].
  rewrite <- Hlin in Hi, Ho, Hw.
  rewrite make_dims_nth in Ho. rewrite !make_dims_nth in Hi. fold N in Hi, Ho.
  assert (Hlast : l = N -> is_skip (skip_in cfg) l = false).
  { intros ->. destruct (is_skip (skip_in cfg) N) eqn:Hs; [| reflexivity].
    pose proof (valid_skip_interior N Hv Hs). unfold N in *. lia. }
  split; [| split; [| split; [exact Hw | split; [| exact Hlast]]]].
  - rewrite Hi. destruct (is_skip (skip_in cfg) l);
      destruct (Nat.eqb_spec l 0); destruct (Nat.leb_spec l N); lia.
  - rewrite Ho. replace (l + 1 =? 0) with false
      by (symmetry; apply Nat.eqb_neq; lia).
    destruct (Nat.ltb_spec l N); destruct (Nat.leb_spec (l + 1) N);
      try lia; try reflexivity.
    destruct (Nat.eqb_spec (l + 1) (N + 1)); [reflexivity | lia].
  - intros Hm. rewrite HE. unfold the_embedder.
    destruct (Z.ltb_spec 0 (multires cfg)); [lia | reflexivity].
Qed.

Lemma sdf_layer_widths_witness :
  exists ini lin,
    SDFNetwork_init Samples.band_embedder Samples.sdf_cfg_emb = Ok ini
    /\ nth_error (i_layers ini) 1 = Some lin
    /\ in_dim lin = 13 /\ out_dim lin = 4 /\ wn lin = true.
Proof.
  pose proof (SDFNetwork_init_ok Samples.band_embedder Samples.sdf_cfg_emb
                eq_refl) as Hok.
  eexists. eexists. split; [exact Hok |]. split; [reflexivity |].
  destruct (@sdf_layer_widths Samples.band_embedder Samples.sdf_cfg_emb _ 1 _
              Hok eq_refl) as [Hi [Ho [Hw _]]].
  split; [exact Hi |]. split; [exact Ho | exact Hw].
Defined.

Lemma build_layer_final (cfg : Config) (E : nat) (dims : list nat) (l r c : nat) :
  geometric_init cfg = true ->
  (l =? length dims - 2) = true ->
  let lin := build_layer cfg E dims l in
  (r < out_dim lin ->
   bias_entry lin r
   = Some (Constant (if inside_outside cfg then bias cfg else (- bias cfg)%R)))
  /\ (r < out_dim lin -> c < in_dim lin ->
      weight_entry lin r c
      = Some (Normal (if inside_outside cfg
                      then (- sqrt PI / sqrt (INR (in_dim lin)))%R
                      else (sqrt PI / sqrt (INR (in_dim lin)))%R) 0.0001)).
Proof.
  intros Hg Hl lin.
  pose proof (build_layer_shape cfg E dims l) as [Hi [Ho _]].
  fold lin in Hi, Ho. rewrite Hi, Ho. subst lin. unfold build_layer.
  rewrite Hg, Hl. split.
  - intros Hr.
    destruct (weight_norm cfg), (inside_outside cfg);
      unfold bias_entry; simpl;
      rewrite nth_error_map, nth_error_repeat by exact Hr; reflexivity.
  - intros Hr Hc.
    destruct (weight_norm cfg), (inside_outside cfg);
      unfold weight_entry; simpl;
      rewrite entry_of_fill_cols, entry_of_default by assumption;
      reflexivity.
Qed.

Lemma build_layer_plain (cfg : Config) (E : nat) (dims : list nat) (l r c : nat) :
  geometric_init cfg = true ->
  (l =? length dims - 2) = false ->
  (multires cfg <= 0)%Z \/ (l <> 0 /\ is_skip (skip_in cfg) l = false) ->
  let lin := build_layer cfg E dims l in
  (r < out_dim lin -> bias_entry lin r = Some (Constant 0))
  /\ (r < out_dim lin -> c < in_dim lin ->
      weight_entry lin r c
      = Some (Normal 0 (sqrt 2 / sqrt (INR (out_dim lin))))).
Proof.
  intros Hg Hl Hcase lin.
  pose proof (build_layer_shape cfg E dims l) as [Hi [Ho _]].
  fold lin in Hi, Ho. rewrite Hi, Ho. subst lin. unfold build_layer.
  rewrite Hg, Hl.
  assert (Hb : ((0 <? multires cfg)%Z && (l =? 0)) = false
               /\ ((0 <? multires cfg)%Z && is_skip (skip_in cfg) l) = false).
  { destruct Hcase as [Hm | [Hl0 Hs]].
    - destruct (Z.ltb_spec 0 (multires cfg)); [lia |]. split; reflexivity.
    - rewrite Hs. apply Nat.eqb_neq in Hl0. rewrite Hl0.
      rewrite !andb_false_r. split; reflexivity. }
  destruct Hb as [Hb1 Hb2]. rewrite Hb1, Hb2. split.
  - intros Hr. destruct (weight_norm cfg); unfold bias_entry; simpl;
      rewrite nth_error_map, nth_error_repeat by exact Hr; reflexivity.
  - intros Hr Hc. destruct (weight_norm cfg); unfold weight_entry; simpl;
      rewrite entry_of_fill_cols, entry_of_default by assumption;
      reflexivity.
Qed.

Lemma build_layer_default (cfg : Config) (E : nat) (dims : list nat) (l r c : nat) :
  geometric_init cfg = false ->
  let lin := build_layer cfg E dims l in
  (r < out_dim lin -> bias_entry lin r = Some Default)
  /\ (r < out_dim lin -> c < in_dim lin ->
      weight_entry lin r c = Some Default).
Proof.
  intros Hg lin.
  pose proof (build_layer_shape cfg E dims l) as [Hi [Ho _]].
  fold lin in Hi, Ho. rewrite Hi, Ho. subst lin. unfold build_layer.
  rewrite Hg. split.
  - intros Hr. destruct (weight_norm cfg); unfold bias_entry; simpl;
      rewrite nth_error_repeat by exact Hr; reflexivity.
  - intros Hr Hc. destruct (weight_norm cfg); unfold weight_entry; simpl;
      rewrite entry_of_default by assumption; reflexivity.
Qed.

(** X2. Under geometric initialisation the last layer of the stack maps
    [d_hidden] to [d_out] inputs, every weight entry is a draw from
    N(sqrt(pi)/sqrt(d_hidden), 0.0001) and every bias entry is [-bias];
    with [inside_outside] the mean and the bias change sign. *)
Theorem geometric_init_final_layer (ge : get_embedder_t) (cfg : Config)
  (ini : SDFInit) (lin : LinearInit) :
  SDFNetwork_init ge cfg = Ok ini ->
  geometric_init cfg = true ->
  nth_error (i_layers ini) (Z.to_nat (n_layers cfg)) = Some lin ->
  in_dim lin = d_hidden cfg /\ out_dim lin = d_out cfg
  /\ (forall r, r < d_out cfg ->
        bias_entry lin r
        = Some (Constant (if inside_outside cfg then bias cfg
                          else (- bias cfg)%R)))
  /\ (forall r c, r < d_out cfg -> c < d_hidden cfg ->
        weight_entry lin r c
        = Some (Normal (if inside_outside cfg
                        then (- sqrt PI / sqrt (INR (d_hidden cfg)))%R
                        else (sqrt PI / sqrt (INR (d_hidden cfg)))%R) 0.0001)).
Proof.
  intros Hok Hg Hnth.
  destruct (built_layer_inv _ _ _ Hok Hnth) as [Hv [HE [Hlin [Hle Hlen]]]].
  set (E := input_ch (the_embedder ge cfg)) in *.
  set (N := Z.to_nat (n_layers cfg)) in *.
  pose proof (valid_skip_depth Hv) as Hn.
  assert (HlN : (N =? length (make_dims E cfg) - 2) = true)
    by (apply Nat.eqb_eq; lia).
  destruct (build_layer_shape cfg E (make_dims E cfg) N) as [Hi [Ho _]].
  rewrite <- Hlin in Hi, Ho.
  assert (Hs : is_skip (skip_in cfg) N = false).
  { destruct (is_skip (skip_in cfg) N) eqn:Hs; [| reflexivity].
    pose proof (valid_skip_interior N Hv Hs). unfold N in *. lia. }
  rewrite Hs in Hi. rewrite (make_dims_nth E cfg N) in Hi.
  rewrite (make_dims_nth E cfg (N + 1)) in Ho. fold N in Hi, Ho.
  assert (Hi' : in_dim lin = d_hidden cfg).
  { rewrite Hi. destruct (Nat.eqb_spec N 0); [unfold N in *; lia |].
    rewrite Nat.leb_refl. reflexivity. }
  assert (Ho' : out_dim lin = d_out cfg).
  { rewrite Ho. replace (N + 1 =? 0) with false
      by (symmetry; apply Nat.eqb_neq; lia).
    destruct (Nat.leb_spec (N + 1) N); [lia |].
    rewrite Nat.eqb_refl. reflexivity. }
  split; [exact Hi' |]. split; [exact Ho' |].
  split.
  - intros r Hr. rewrite <- Ho' in Hr. rewrite Hlin in Hr |- *.
    apply (proj1 (build_layer_final cfg E (make_dims E cfg) N r 0 Hg HlN) Hr).
  - intros r c Hr Hc. rewrite <- Ho' in Hr. rewrite <- Hi' in Hc |- *.
    rewrite Hlin in Hr, Hc |- *.
    apply (proj2 (build_layer_final cfg E (make_dims E cfg) N r c Hg HlN) Hr Hc).
Qed.

Lemma geometric_init_final_layer_witness :
  exists ini lin,
    SDFNetwork_init Samples.band_embedder Samples.sdf_cfg_emb = Ok ini
    /\ nth_error (i_layers ini) 3 = Some lin
    /\ in_dim lin = 4 /\ out_dim lin = 2
    /\ bias_entry lin 1 = Some (Constant (Ropp 0.5))
    /\ weight_entry lin 1 3
       = Some (Normal (sqrt PI / sqrt (INR 4))%R 0.0001).
Proof.
  pose proof (SDFNetwork_init_ok Samples.band_embedder Samples.sdf_cfg_emb
                eq_refl) as Hok.
  eexists. eexists. split; [exact Hok |]. split; [reflexivity |].
  destruct (@geometric_init_final_layer Samples.band_embedder
              Samples.sdf_cfg_emb _ _ Hok eq_refl eq_refl)
    as [Hi [Ho [Hb Hw]]].
  split; [exact Hi |]. split; [exact Ho |]. split.
  - apply Hb. simpl. lia.
  - apply Hw; simpl; lia.
Defined.

(** X3. Under geometric initialisation every layer that is neither the last
    one nor, with an embedding in use, layer 0 or a skip layer has a zero
    bias and all its weight entries drawn from
    N(0, sqrt 2 / sqrt d_hidden). Without an embedding ([multires <= 0])
    this covers layer 0 and the skip layers too. *)
Theorem geometric_init_plain_layers (ge : get_embedder_t) (cfg : Config)
  (ini : SDFInit) (l : nat) (lin : LinearInit) :
  SDFNetwork_init ge cfg = Ok ini ->
  geometric_init cfg = true ->
  nth_error (i_layers ini) l = Some lin ->
  l < Z.to_nat (n_layers cfg) ->
  (multires cfg <= 0)%Z \/ (l <> 0 /\ is_skip (skip_in cfg) l = false) ->
  out_dim lin = d_hidden cfg
  /\ (forall r, r < out_dim lin -> bias_entry lin r = Some (Constant 0))
  /\ (forall r c, r < out_dim lin -> c < in_dim lin ->
        weight_entry lin r c
        = Some (Normal 0 (sqrt 2 / sqrt (INR (d_hidden cfg))))).
Proof.
  intros Hok Hg Hnth HlN Hcase.
  destruct (built_layer_inv _ _ _ Hok Hnth) as [Hv [HE [Hlin [Hle Hlen]]]].
  set (E := input_ch (the_embedder ge cfg)) in *.
  set (N := Z.to_nat (n_layers cfg)) in *.
  assert (Hnl : (l =? length (make_dims E cfg) - 2) = false)
    by (apply Nat.eqb_neq; lia).
  destruct (build_layer_shape cfg E (make_dims E cfg) l) as [_ [Ho _]].
  rewrite <- Hlin in Ho. rewrite (make_dims_nth E cfg (l + 1)) in Ho.
  fold N in Ho.
  assert (Ho' : out_dim lin = d_hidden cfg).
  { rewrite Ho. replace (l + 1 =? 0) with false
      by (symmetry; apply Nat.eqb_neq; lia).
    destruct (Nat.leb_spec (l + 1) N); [reflexivity | lia]. }
  split; [exact Ho' |]. split.
  - intros r Hr. rewrite Hlin in Hr |- *.
    apply (proj1 (build_layer_plain cfg E (make_dims E cfg) r 0 Hg Hnl Hcase) Hr).
  - intros r c Hr Hc. rewrite <- Ho'. rewrite Hlin in Hr, Hc |- *.
    apply (proj2 (build_layer_plain cfg E (make_dims E cfg) r c Hg Hnl Hcase)
             Hr Hc).
Qed.

Lemma geometric_init_plain_layers_witness :
  exists ini lin,
    SDFNetwork_init Samples.id_embedder (Samples.sdf_cfg 8 [4%Z]) = Ok ini
    /\ nth_error (i_layers ini) 4 = Some lin
    /\ is_skip [4%Z] 4 = true
    /\ bias_entry lin 0 = Some (Constant 0)
    /\ weight_entry lin 0 3 = Some (Normal 0 (sqrt 2 / sqrt (INR 1))).
Proof.
  pose proof (SDFNetwork_init_ok Samples.id_embedder (Samples.sdf_cfg 8 [4%Z])
                eq_refl) as Hok.
  eexists. eexists. split; [exact Hok |]. split; [reflexivity |].
  split; [reflexivity |].
  destruct (@geometric_init_plain_layers Samples.id_embedder
              (Samples.sdf_cfg 8 [4%Z]) _ 4 _ Hok eq_refl eq_refl)
    as [Ho [Hb Hw]].
  - simpl. lia.
  - left. simpl. lia.
  - split.
    + apply Hb. rewrite Ho. simpl. lia.
    + apply Hw; [rewrite Ho; simpl; lia | simpl; lia].
Defined.

(** X4. Without geometric initialisation the constructor leaves every weight
    and bias entry of every layer of the stack at the default
    initialisation of [nn.Linear]. *)
Theorem no_geometric_init_default (ge : get_embedder_t) (cfg : Config)
  (ini : SDFInit) (l : nat) (lin : LinearInit) :
  SDFNetwork_init ge cfg = Ok ini ->
  geometric_init cfg = false ->
  nth_error (i_layers ini) l = Some lin ->
  (forall r, r < out_dim lin -> bias_entry lin r = Some Default)
  /\ (forall r c, r < out_dim lin -> c < in_dim lin ->
        weight_entry lin r c = Some Default).
Proof.
  intros Hok Hg Hnth.
  destruct (built_layer_inv _ _ _ Hok Hnth) as [_ [_ [Hlin _]]].
  set (E := input_ch (the_embedder ge cfg)) in *.
  split.
  - intros r Hr. rewrite Hlin in Hr |- *.
    apply (proj1 (build_layer_default cfg E (make_dims E cfg) l r 0 Hg) Hr).
  - intros r c Hr Hc. rewrite Hlin in Hr, Hc |- *.
    apply (proj2 (build_layer_default cfg E (make_dims E cfg) l r c Hg) Hr Hc).
Qed.

Lemma no_geometric_init_default_witness :
  exists ini lin,
    SDFNetwork_init Samples.band_embedder Samples.sdf_cfg_plain = Ok ini
    /\ nth_error (i_layers ini) 0 = Some lin
    /\ bias_entry lin 0 = Some Default
    /\ weight_entry lin 0 5 = Some Default.
Proof.
  pose proof (SDFNetwork_init_ok Samples.band_embedder Samples.sdf_cfg_plain
                eq_refl) as Hok.
  eexists. eexists. split; [exact Hok |]. split; [reflexivity |].
  destruct (@no_geometric_init_default Samples.band_embedder
              Samples.sdf_cfg_plain _ 0 _ Hok eq_refl eq_refl) as [Hb Hw].
  split.
  - apply Hb. simpl. lia.
  - apply Hw; simpl; lia.
Defined.

End SDFStack.

(** ** What the SDF forward pass returns and when it raises *)

Section SDFForwardMore.
Import Torch SDF.





Lemma built_layers_cons (ge : get_embedder_t) (cfg : Config) :
  let E := input_ch (the_embedder ge cfg) in
  exists rest,
    built_layers ge cfg = build_layer cfg E (make_dims E cfg) 0 :: rest.
Proof.
  intros E. unfold built_layers. fold E. rewrite length_make_dims.
  replace (Z.to_nat (n_layers cfg) + 2 - 1) with (S (Z.to_nat (n_layers cfg)))
    by lia.
  simpl. eexists. reflexivity.
Qed.

(** X8. A feature tensor whose batch size differs from that of the points,
    or whose width is not [feature_dim], makes [forward] raise: the
    concatenation fails, or the first layer refuses the width. *)
Theorem forward_features_mismatch (ge : get_embedder_t) (cfg : Config)
  (ini : SDFInit) (th : params) (x f : tensor) :
  SDFNetwork_init ge cfg = Ok ini ->
  embeds (embed (the_embedder ge cfg)) (d_in cfg)
         (input_ch (the_embedder ge cfg)) ->
  wf_tensor x -> ncols x = d_in cfg ->
  scale_fits (scale cfg) (d_in cfg) ->
  nrows f <> nrows x \/ ncols f <> feature_dim cfg ->
  forward (load th ini) x (Some f) = Raise RuntimeError.
Proof.
  intros Hok Hemb Hx Hxc Hsc Hbad.
  destruct (SDFNetwork_init_inv _ _ Hok) as [Hv [Ha Hl]].
  unfold forward, load. rewrite Ha, Hl. simpl.
  destruct (@broadcast_fits Rmult x (scale cfg) Hx) as [inputs [Hm [Hic [Hir Hiw]]]];
    [rewrite Hxc; exact Hsc |].
  unfold tmul. rewrite Hm. simpl.
  destruct (Hemb inputs Hiw) as [Hew [Hec Her]]; [congruence |].
  set (E := input_ch (the_embedder ge cfg)) in *.
  set (emb := embed (the_embedder ge cfg)) in *.
  unfold cat at 1.
  destruct (Nat.eqb_spec (nrows (emb inputs)) (nrows f)) as [Hrows|Hrows];
    [| reflexivity].
  assert (Hcols : ncols f <> feature_dim cfg).
  { destruct Hbad as [Hb|Hb]; [exfalso; apply Hb; congruence | exact Hb]. }
  cbn [bind].
  destruct (built_layers_cons ge cfg) as [rest Hcons]. fold E in Hcons.
  rewrite Hcons. cbn [load_layers run_layers self_skip_in embed_fn_fine].
  destruct (build_layer_shape cfg E (make_dims E cfg) 0) as [Hi0 _].
  change (nth 0 (make_dims E cfg) 0) with (E + feature_dim cfg) in Hi0.
  destruct (is_skip (skip_in cfg) 0).
  - unfold cat. unfold nrows at 1. simpl.
    rewrite length_zip_app. fold (nrows (emb inputs)) (nrows f).
    rewrite <- Hrows, Nat.min_id, Nat.eqb_refl. cbn [bind].
    unfold Linear_forward. simpl. rewrite Hi0, Hec.
    destruct (Nat.eqb_spec (E + ncols f + E) (E + feature_dim cfg + E));
      [lia | reflexivity].
  - cbn [bind]. unfold Linear_forward. simpl. rewrite Hi0, Hec.
    destruct (Nat.eqb_spec (E + ncols f) (E + feature_dim cfg));
      [lia | reflexivity].
Qed.

Lemma forward_features_mismatch_witness :
  forward (load Samples.unit_params
             (built Samples.id_embedder Samples.feat_cfg))
          Samples.origin (Some Samples.row3) = Raise RuntimeError.
Proof.
  apply (@forward_features_mismatch Samples.id_embedder Samples.feat_cfg
           (built Samples.id_embedder Samples.feat_cfg)
           Samples.unit_params Samples.origin Samples.row3).
  - apply SDFNetwork_init_ok. reflexivity.
  - intros t Ht Hc. repeat split; assumption.
  - repeat constructor.
  - reflexivity.
  - simpl. left. reflexivity.
  - right. simpl. lia.
Defined.

(** X9. Under a Scale Vector of three components the points must be 3 or 1
    wide: any other width makes [forward] raise at the first
    multiplication, and a batch of 1-wide points is silently broadcast,
    [forward] returning what it returns on the batch with its single
    column repeated three times. *)
Theorem forward_point_width (net : SDFNetwork) (x : tensor)
  (features : option tensor) (v : list R) :
  self_scale net = Vec1 v -> length v = 3 ->
  (ncols x <> 3 -> ncols x <> 1 ->
   forward net x features = Raise RuntimeError)
  /\ (ncols x = 1 ->
      forward net x features
      = forward net (TorchExt.expand_cols 3 x) features).
Proof.
  intros Hs Hv. unfold forward. rewrite Hs. unfold tmul, broadcast.
  rewrite Hv. split.
  - intros H3 H1.
    destruct (Nat.eqb_spec (ncols x) 3); [contradiction |].
    destruct (Nat.eqb_spec (ncols x) 1); [contradiction |].
    reflexivity.
  - intros H1. rewrite H1. simpl.
    replace (map (fun r => zip_with Rmult r v)
                 (map (fun r => [hd 0%R r; hd 0%R r; hd 0%R r]) (trows x)))
      with (map (fun r => map (fun c => (hd 0%R r * c)%R) v) (trows x));
      [reflexivity |].
    rewrite map_map. apply map_ext. intros r.
    destruct v as [|v0 [|v1 [|v2 [|v3 v']]]]; try discriminate. reflexivity.
Qed.

Lemma forward_point_width_witness :
  forward Samples.wide_net (mkT 1 [[0%R]]) None
  = forward Samples.wide_net (TorchExt.expand_cols 3 (mkT 1 [[0%R]])) None
  /\ forward Samples.wide_net (mkT 2 [[0; 0]%R]) None = Raise RuntimeError.
Proof.
  destruct (@forward_point_width Samples.wide_net (mkT 1 [[0%R]]) None
              [1; 1; 2]%R eq_refl eq_refl) as [_ H1].
  destruct (@forward_point_width Samples.wide_net (mkT 2 [[0; 0]%R]) None
              [1; 1; 2]%R eq_refl eq_refl) as [H2 _].
  split; [apply H1; reflexivity | apply H2; simpl; lia].
Defined.

End SDFForwardMore.

(** ** Which error the SDF constructor raises *)

Section SDFInitErrors.
Import Torch SDF.
Open Scope Z_scope.

Lemma fold_max_ge (t : list Z) (x n : Z) :
  n <= fold_left Z.max t x <-> exists i, In i (x :: t) /\ n <= i.
Proof.
  revert x; induction t as [|y t IH]; intros x; simpl.
  - split.
    + intros H. exists x. split; [left; reflexivity | exact H].
    + intros [i [Hi H]]. destruct Hi as [Hi|Hi]; [subst; exact H | contradiction].
  - rewrite IH. split.
    + intros [i [[Hi|Hi] H]].
      * subst i. destruct (Z.max_spec x y) as [[_ Hm]|[_ Hm]];
          rewrite Hm in H.
        -- exists y. split; [right; left; reflexivity | exact H].
        -- exists x. split; [left; reflexivity | exact H].
      * exists i. split; [right; right; exact Hi | exact H].
    + intros [i [[Hi|[Hi|Hi]] H]].
      * subst i. exists (Z.max x y). split; [left; reflexivity | lia].
      * subst i. exists (Z.max x y). split; [left; reflexivity | lia].
      * exists i. split; [right; exact Hi | exact H].
Qed.

Lemma fold_min_lt (t : list Z) (x n : Z) :
  fold_left Z.min t x < n <-> exists i, In i (x :: t) /\ i < n.
Proof.
  revert x; induction t as [|y t IH]; intros x; simpl.
  - split.
    + intros H. exists x. split; [left; reflexivity | exact H].
    + intros [i [Hi H]]. destruct Hi as [Hi|Hi]; [subst; exact H | contradiction].
  - rewrite IH. split.
    + intros [i [[Hi|Hi] H]].
      * subst i. destruct (Z.min_spec x y) as [[_ Hm]|[_ Hm]];
          rewrite Hm in H.
        -- exists x. split; [left; reflexivity | exact H].
        -- exists y. split; [right; left; reflexivity | exact H].
      * exists i. split; [right; right; exact Hi | exact H].
    + intros [i [[Hi|[Hi|Hi]] H]].
      * subst i. exists (Z.min x y). split; [left; reflexivity | lia].
      * subst i. exists (Z.min x y). split; [left; reflexivity | lia].
      * exists i. split; [right; exact Hi | exact H].
Qed.

Lemma SDFNetwork_init_raise (ge : get_embedder_t) (cfg : Config) (e : exn) :
  SDFNetwork_init ge cfg = Raise e
  <-> check_skip_in (skip_in cfg) (n_layers cfg) = Some e.
Proof.
  destruct (check_skip_in (skip_in cfg) (n_layers cfg)) as [e0|] eqn:Hc.
  - unfold SDFNetwork_init, init_steps. rewrite Hc. simpl.
    split; intros H; inversion H; reflexivity.
  - rewrite (SDFNetwork_init_ok ge cfg Hc). split; discriminate.
Qed.

(** X5. The first message is raised exactly when some skip index lies
    outside [0, n_layers - 1] (or the skip set is empty and [n_layers]
    negative); the second exactly when all indices lie inside and the
    skip set is empty or contains [n_layers - 1]. *)
Theorem SDFNetwork_init_message (ge : get_embedder_t) (cfg : Config) :
  let skip := skip_in cfg in
  let n := n_layers cfg in
  (SDFNetwork_init ge cfg = Raise (ValueError MustBeWithin)
   <-> (exists i, In i skip /\ (i < 0 \/ n <= i)) \/ (skip = [] /\ n < 0))
  /\ (SDFNetwork_init ge cfg = Raise (ValueError MustBeInterior)
      <-> (forall i, In i skip -> 0 <= i < n)
          /\ ((skip = [] /\ 0 <= n) \/ In (n - 1) skip)).
Proof.
  intros skip n. rewrite !SDFNetwork_init_raise. fold skip n.
  unfold check_skip_in. destruct skip as [|x t].
  - cbn [py_max py_min orb].
    destruct (Z.geb_spec (-1) n) as [H1|H1];
      destruct (Z.ltb_spec n 0) as [H2|H2]; cbn [orb]; try lia.
    + split; split; try discriminate; try (intros _; reflexivity).
      * intros _. right. split; [reflexivity | lia].
      * intros [_ Hc]. destruct Hc as [[_ H]|Hc]; [lia | contradiction].
    + split; split; try discriminate; try (intros _; reflexivity).
      * intros Hc. destruct Hc as [[i [Hi _]]|[_ H]]; [contradiction | lia].
      * intros _. split; [intros i Hi; contradiction |].
        left. split; [reflexivity | lia].
  - cbn [py_max py_min].
    pose proof (fold_max_ge t x n) as Hmax.
    pose proof (fold_max_ge t x (n - 1)) as Hmax1.
    pose proof (fold_min_lt t x 0) as Hmin.
    set (M := fold_left Z.max t x) in *. set (m := fold_left Z.min t x) in *.
    assert (Hall : (M < n /\ 0 <= m) <-> forall i, In i (x :: t) -> 0 <= i < n).
    { split.
      - intros [HM Hm] i Hi. split.
        + destruct (Z.lt_ge_cases i 0) as [Hlt|Hge]; [| exact Hge].
          assert (m < 0) by (apply Hmin; exists i; split; assumption). lia.
        + destruct (Z.lt_ge_cases i n) as [Hlt|Hge]; [exact Hlt |].
          assert (n <= M) by (apply Hmax; exists i; split; assumption). lia.
      - intros H. split.
        + destruct (Z.lt_ge_cases M n) as [Hlt|Hge]; [exact Hlt |].
          apply Hmax in Hge. destruct Hge as [i [Hi Hn]].
          specialize (H i Hi). lia.
        + destruct (Z.lt_ge_cases m 0) as [Hlt|Hge]; [| exact Hge].
          apply Hmin in Hlt. destruct Hlt as [i [Hi Hn]].
          specialize (H i Hi). lia. }
    destruct (Z.geb_spec M n) as [H1|H1];
      destruct (Z.ltb_spec m 0) as [H2|H2]; cbn [orb].
    + split; split; try discriminate; try (intros _; reflexivity).
      * intros _. left. apply Hmax in H1. destruct H1 as [i [Hi Hn]].
        exists i. split; [exact Hi | right; exact Hn].
      * intros [H _]. apply Hall in H. lia.
    + split; split; try discriminate; try (intros _; reflexivity).
      * intros _. left. apply Hmax in H1. destruct H1 as [i [Hi Hn]].
        exists i. split; [exact Hi | right; exact Hn].
      * intros [H _]. apply Hall in H. lia.
    + split; split; try discriminate; try (intros _; reflexivity).
      * intros _. left. apply Hmin in H2. destruct H2 as [i [Hi Hn]].
        exists i. split; [exact Hi | left; exact Hn].
      * intros [H _]. apply Hall in H. lia.
    + assert (Hin : forall i, In i (x :: t) -> 0 <= i < n)
        by (apply Hall; split; lia).
      destruct (Z.geb_spec M (n - 1)) as [H3|H3]; cbn [orb].
      * split; split; try discriminate; try (intros _; reflexivity).
        -- intros [[i [Hi [Hn|Hn]]]|[Hx _]]; [| | discriminate];
             specialize (Hin i Hi); lia.
        -- intros _. split; [exact Hin |]. right.
           apply Hmax1 in H3. destruct H3 as [i [Hi Hn]].
           specialize (Hin i Hi). replace (n - 1) with i by lia. exact Hi.
      * split; split; try discriminate; try (intros _; reflexivity).
        -- intros [[i [Hi [Hn|Hn]]]|[Hx _]]; [| | discriminate];
             specialize (Hin i Hi); lia.
        -- intros [_ [[Hx _]|Hi]]; [discriminate |].
           assert (n - 1 <= M) by (apply Hmax1; exists (n - 1); split;
                                   [exact Hi | lia]). lia.
Qed.

End SDFInitErrors.

(** ** The rendering network: its layer stack and its failures *)

Section RenderingMore.
Import Torch Rendering.

Lemma rendering_make_dims_nth (ge : get_embedder_t) (cfg : Config) (i : nat) :
  nth i (make_dims ge cfg) 0%Z
  = if i =? 0 then init_first_width ge cfg
    else if i <=? Z.to_nat (n_layers cfg) then Z.of_nat (d_hidden cfg)
    else if i =? Z.to_nat (n_layers cfg) + 1 then Z.of_nat (d_out cfg)
    else 0%Z.
Proof.
  set (N := Z.to_nat (n_layers cfg)).
  assert (Hd : make_dims ge cfg
               = init_first_width ge cfg
                   :: (repeat (Z.of_nat (d_hidden cfg)) N
                       ++ [Z.of_nat (d_out cfg)])).
  { unfold make_dims, init_first_width. fold N.
    destruct (0 <? multires_view cfg)%Z; f_equal; lia. }
  rewrite Hd. destruct i as [|i]; [reflexivity |].
  cbn [nth]. change (S i =? 0) with false. cbv iota.
  destruct (Nat.leb_spec (S i) N) as [Hle|Hgt].
  - rewrite app_nth1 by (rewrite repeat_length; lia).
    rewrite (nth_indep _ 0%Z (Z.of_nat (d_hidden cfg)))
      by (rewrite repeat_length; lia).
    apply nth_repeat.
  - rewrite app_nth2 by (rewrite repeat_length; lia).
    rewrite repeat_length.
    destruct (Nat.eqb_spec (S i) (N + 1)) as [He|Hne].
    + replace (i - N) with 0 by lia. reflexivity.
    + destruct (i - N) as [|[|k]] eqn:Hk; try reflexivity. lia.
Qed.

Lemma build_lins_nonneg (th : params) (wn : bool) (dims : list Z) :
  Forall (fun d => (0 <= d)%Z) dims ->
  forall l, exists lins, build_lins th wn l dims = Ok lins.
Proof.
  induction 1 as [|d dims Hd Hrest IH]; intros l.
  - exists []. reflexivity.
  - destruct dims as [|o rest].
    + exists []. reflexivity.
    + rewrite build_lins_cons. unfold nn_Linear.
      inversion Hrest as [|? ? Ho _]; subst.
      destruct (Z.ltb_spec d 0); [lia |].
      destruct (Z.ltb_spec o 0); [lia |]. cbn [orb bind].
      destruct (IH (S l)) as [ls Hls]. rewrite Hls. cbn [bind].
      eexists. reflexivity.
Qed.

Lemma rendering_make_dims_tail (ge : get_embedder_t) (cfg : Config) :
  exists rest,
    make_dims ge cfg = init_first_width ge cfg :: rest
    /\ rest <> [] /\ Forall (fun d => (0 <= d)%Z) rest.
Proof.
  exists (repeat (Z.of_nat (d_hidden cfg)) (Z.to_nat (n_layers cfg))
          ++ [Z.of_nat (d_out cfg)]).
  split; [| split].
  - unfold make_dims, init_first_width.
    destruct (0 <? multires_view cfg)%Z; f_equal; lia.
  - intros H. apply app_eq_nil in H. destruct H as [_ H]. discriminate.
  - apply Forall_app. split.
    + apply Forall_forall. intros d Hd. apply repeat_spec in Hd. lia.
    + constructor; [lia | constructor].
Qed.

(** X11. Construction of a rendering network succeeds exactly when the first
    layer's width [d_in + d_feature + image_feature_dim (+ input_ch - 3)]
    is not negative, and raises otherwise; without a view embedding it
    always succeeds. *)
Theorem RenderingNetwork_init_succeeds_iff (ge : get_embedder_t)
  (cfg : Config) (th : params) :
  ((exists net, RenderingNetwork_init ge cfg th = Ok net)
   <-> (0 <= init_first_width ge cfg)%Z)
  /\ ((init_first_width ge cfg < 0)%Z ->
      RenderingNetwork_init ge cfg th = Raise RuntimeError)
  /\ ((multires_view cfg <= 0)%Z ->
      exists net, RenderingNetwork_init ge cfg th = Ok net).
Proof.
  destruct (rendering_make_dims_tail ge cfg) as [rest [Hd [Hne Hpos]]].
  assert (Hok : (0 <= init_first_width ge cfg)%Z ->
                exists net, RenderingNetwork_init ge cfg th = Ok net).
  { intros H0. unfold RenderingNetwork_init.
    destruct (@build_lins_nonneg th (weight_norm cfg) (make_dims ge cfg))
      with (l := 0) as [lins Hl].
    - rewrite Hd. constructor; assumption.
    - rewrite Hl. cbn [bind]. eexists. reflexivity. }
  assert (Hbad : (init_first_width ge cfg < 0)%Z ->
                 RenderingNetwork_init ge cfg th = Raise RuntimeError).
  { intros Hneg. unfold RenderingNetwork_init. rewrite Hd.
    destruct rest as [|o rest']; [congruence |].
    rewrite build_lins_cons. unfold nn_Linear.
    destruct (Z.ltb_spec (init_first_width ge cfg) 0); [| lia].
    reflexivity. }
  split; [split |split].
  - intros [net H].
    destruct (Z.lt_ge_cases (init_first_width ge cfg) 0) as [Hneg|Hge];
      [| exact Hge].
    rewrite (Hbad Hneg) in H. discriminate.
  - exact Hok.
  - exact Hbad.
  - intros Hm. apply Hok. unfold init_first_width.
    destruct (Z.ltb_spec 0 (multires_view cfg)); lia.
Qed.

Lemma RenderingNetwork_init_succeeds_iff_witness :
  exists net,
    RenderingNetwork_init Samples.id_embedder (Samples.render_cfg "idr" 9)
                          Samples.unit_params = Ok net.
Proof.
  apply (proj2 (proj2 (RenderingNetwork_init_succeeds_iff Samples.id_embedder
                         (Samples.render_cfg "idr" 9) Samples.unit_params))).
  simpl. lia.
Defined.

(** X12. The layer stack of a constructed rendering network: [n_layers + 1]
    layers, the first of the width computed by the constructor, the
    others [d_hidden] wide, the last one producing [d_out] columns; each
    layer is weight-normalised exactly when [weight_norm] is set. *)
Theorem rendering_layer_stack (ge : get_embedder_t) (cfg : Config)
  (th : params) (net : RenderingNetwork) :
  RenderingNetwork_init ge cfg th = Ok net ->
  let N := Z.to_nat (n_layers cfg) in
  num_layers net = N + 2
  /\ length (lin net) = N + 1
  /\ forall i layer, nth_error (lin net) i = Some layer ->
       wf_linear layer
       /\ Z.of_nat (in_features layer)
          = (if i =? 0 then init_first_width ge cfg
             else Z.of_nat (d_hidden cfg))
       /\ out_features layer = (if i <? N then d_hidden cfg else d_out cfg)
       /\ (weight_g layer = None <-> weight_norm cfg = false).
Proof.
  intros Hok N.
  destruct (RenderingNetwork_init_inv _ _ _ Hok) as [Hm [Hsq [Hnl Hb]]].
  destruct (build_lins_spec _ _ _ _ Hb) as [Hlen Hnth].
  destruct (make_dims_shape ge cfg) as [Hdl _]. fold N in Hdl.
  destruct (RenderingNetwork_init_first_width_gen _ _ _ Hok) as [w [_ Hw]].
  split; [congruence |]. split; [lia |].
  intros i layer Hi.
  assert (Hlt : i < length (lin net)).
  { apply nth_error_Some. congruence. }
  cbn [Nat.add] in Hnth.
  rewrite (Hnth i Hlt) in Hi. inversion Hi; subst layer. clear Hi.
  destruct (Linear_of_wf th (weight_norm cfg) i
              (Z.to_nat (nth i (make_dims ge cfg) 0%Z))
              (Z.to_nat (nth (S i) (make_dims ge cfg) 0%Z)))
    as [Hwf [Hin Hout]].
  split; [exact Hwf |]. rewrite Hin, Hout.
  rewrite !rendering_make_dims_nth. fold N.
  split; [| split].
  - destruct (Nat.eqb_spec i 0); [lia |].
    destruct (Nat.leb_spec i N); [lia | lia].
  - change (S i =? 0) with false. cbv iota.
    destruct (Nat.ltb_spec i N); destruct (Nat.leb_spec (S i) N); try lia.
    destruct (Nat.eqb_spec (S i) (N + 1)); lia.
  - unfold Linear_of. simpl. destruct (weight_norm cfg); split;
      intros H; try discriminate; reflexivity.
Qed.

Lemma rendering_layer_stack_witness :
  exists net,
    RenderingNetwork_init Samples.id_embedder (Samples.render_cfg "idr" 9)
                          Samples.unit_params = Ok net
    /\ num_layers net = 3 /\ length (lin net) = 2.
Proof.
  assert (H : exists net,
             RenderingNetwork_init Samples.id_embedder
               (Samples.render_cfg "idr" 9) Samples.unit_params = Ok net)
    by (eexists; reflexivity).
  destruct H as [net H]. exists net. split; [exact H |].
  destruct (@rendering_layer_stack Samples.id_embedder
              (Samples.render_cfg "idr" 9) Samples.unit_params net H)
    as [Hn [Hl _]].
  split; [exact Hn | exact Hl].
Defined.

(** X13. When the tensors the mode selects do not add up to the first
    layer's width, [forward] raises at the first layer. Since the
    constructor does not adapt that width to the mode, this is what
    happens when [d_in] does not account for the selected inputs. *)
Theorem forward_width_mismatch (ge : get_embedder_t) (cfg : Config)
  (th : params) (net : RenderingNetwork) (p n v fv f : tensor)
  (t : tensor) (ts : list tensor) (B : nat) :
  RenderingNetwork_init ge cfg th = Ok net ->
  select (mode cfg) p n
         (match embedview_fn net with Some e => e v | None => v end) fv f
  = Some (t, ts) ->
  Forall wf_tensor (t :: ts) -> Forall (fun u => nrows u = B) (t :: ts) ->
  Z.of_nat (total_width t ts) <> init_first_width ge cfg ->
  forward net p n v fv f = Raise RuntimeError.
Proof.
  intros Hok Hsel Hws Hrs Hne.
  destruct (RenderingNetwork_init_inv _ _ _ Hok) as [Hm [Hsq [Hnl Hb]]].
  destruct (build_lins_spec _ _ _ _ Hb) as [Hlen Hnth].
  destruct (make_dims_shape ge cfg) as [Hdl _].
  destruct (RenderingNetwork_init_first_width_gen _ _ _ Hok) as [w [_ Hw]].
  unfold forward. rewrite Hm, Hsel.
  inversion Hws as [|? ? Ht Hws']; inversion Hrs as [|? ? Htr Hrs']; subst.
  destruct (cat_list_shape Ht eq_refl Hws' Hrs') as [x [Hx [Hxw [Hxr Hxc]]]].
  rewrite Hx. cbn [bind]. rewrite Hnl, Hdl.
  replace (Z.to_nat (n_layers cfg) + 2 - 1)
    with (S (Z.to_nat (n_layers cfg))) by lia.
  cbn [seq run_lins]. rewrite Hnth by lia.
  cbn [Linear_call]. unfold Linear_forward.
  destruct (Linear_of_wf th (weight_norm cfg) (0 + 0)
              (Z.to_nat (nth 0 (make_dims ge cfg) 0%Z))
              (Z.to_nat (nth 1 (make_dims ge cfg) 0%Z))) as [_ [Hin _]].
  rewrite Hin, (rendering_make_dims_nth ge cfg 0). cbn [Nat.eqb].
  destruct (Nat.eqb_spec (ncols x) (Z.to_nat (init_first_width ge cfg)));
    [| reflexivity].
  exfalso. apply Hne. rewrite <- Hxc. lia.
Qed.

Lemma forward_width_mismatch_witness :
  exists net,
    RenderingNetwork_init Samples.id_embedder (Samples.render_cfg "idr" 3)
                          Samples.unit_params = Ok net
    /\ forward net Samples.row3 Samples.row3 Samples.row3 Samples.row4
               Samples.row4 = Raise RuntimeError.
Proof.
  assert (H : exists net,
             RenderingNetwork_init Samples.id_embedder
               (Samples.render_cfg "idr" 3) Samples.unit_params = Ok net)
    by (eexists; reflexivity).
  destruct H as [net H]. exists net. split; [exact H |].
  pose proof (RenderingNetwork_init_embedview _ _ _ H) as He. simpl in He.
  apply (@forward_width_mismatch Samples.id_embedder
           (Samples.render_cfg "idr" 3) Samples.unit_params net
           Samples.row3 Samples.row3 Samples.row3 Samples.row4 Samples.row4
           Samples.row3
           [Samples.row3; Samples.row3; Samples.row4; Samples.row4] 1 H).
  - rewrite He. reflexivity.
  - repeat constructor.
  - repeat constructor.
  - unfold total_width, init_first_width. simpl. lia.
Defined.

End RenderingMore.

(** ** The NeRF network: its point layers and its view-conditioned path *)

Section NeRFMore.
Import Torch NeRFNet NeRFExt.

Lemma pts_linears_eq (ge : get_embedder_t) (cfg : Config) (th : params) :
  pts_linears (NeRF_init ge cfg th)
  = map (fun j => Linear_of th false j (pts_in_width ge cfg j) (W cfg))
        (seq 0 (S (last_pts cfg))).
Proof.
  unfold NeRF_init, last_pts. cbn [pts_linears seq map].
  f_equal.
  - unfold pts_in_width, input_ch_of.
    destruct (0 <? multires cfg)%Z; reflexivity.
  - rewrite <- seq_shift, map_map. apply map_ext. intros i.
    unfold pts_in_width, input_ch_of.
    destruct (in_skips (skips cfg) i); destruct (0 <? multires cfg)%Z;
      reflexivity.
Qed.

(** X14. The point layers of a constructed NeRF: [max(D, 1)] layers, all
    with [W] outputs and without weight normalisation; layer 0 takes the
    embedded point width, layer [i + 1] takes [W] inputs, widened by the
    embedded point width exactly when [i] is a skip index. *)
Theorem nerf_point_layers (ge : get_embedder_t) (cfg : Config) (th : params) :
  let net := NeRF_init ge cfg th in
  Z.of_nat (length (pts_linears net)) = Z.max (D cfg) 1
  /\ forall j layer, nth_error (pts_linears net) j = Some layer ->
       wf_linear layer
       /\ in_features layer
          = match j with
            | 0 => input_ch_of ge cfg
            | S i => if in_skips (skips cfg) i
                     then W cfg + input_ch_of ge cfg else W cfg
            end
       /\ out_features layer = W cfg
       /\ weight_g layer = None.
Proof.
  intros net. unfold net. rewrite pts_linears_eq. split.
  - rewrite length_map, length_seq. unfold last_pts. lia.
  - intros j layer Hj. rewrite nth_error_map in Hj.
    destruct (nth_error (seq 0 (S (last_pts cfg))) j) as [k|] eqn:Hk;
      [| discriminate].
    apply nth_error_seq_inv in Hk. destruct Hk as [Hk _]. simpl in Hk. subst k.
    simpl in Hj. inversion Hj; subst layer.
    destruct (Linear_of_wf th false j (pts_in_width ge cfg j) (W cfg))
      as [Hwf [Hin Hout]].
    split; [exact Hwf |]. split; [rewrite Hin; reflexivity |].
    split; [exact Hout | reflexivity].
Qed.

(** The point stack runs through on a tensor of the width layer [j]
    expects, and leaves a tensor of the width layer [j + k] would expect. *)
Lemma run_pts_shape (ge : get_embedder_t) (cfg : Config) (th : params)
  (net : NeRF) (p : tensor) (B : nat) :
  self_skips net = skips cfg ->
  wf_tensor p -> nrows p = B -> ncols p = input_ch_of ge cfg ->
  forall k j h,
    wf_tensor h -> nrows h = B -> ncols h = pts_in_width ge cfg j ->
    exists h',
      run_pts net p j
        (map (fun j => Linear_of th false j (pts_in_width ge cfg j) (W cfg))
             (seq j k)) h = Ok h'
      /\ wf_tensor h' /\ nrows h' = B
      /\ ncols h' = pts_in_width ge cfg (j + k).
Proof.
  intros Hsk Hp Hpr Hpc. induction k as [|k IH]; intros j h Hh Hr Hc.
  - exists h. rewrite Nat.add_0_r. repeat split; assumption.
  - cbn [seq map run_pts].
    destruct (Linear_of_wf th false j (pts_in_width ge cfg j) (W cfg))
      as [Hwf [Hin Hout]].
    destruct (@Linear_forward_shape _ h Hwf) as [h1 [Hh1 [Hr1 [Hc1 Hw1]]]];
      [congruence |].
    rewrite Hh1. cbn [bind].
    destruct (tmap_shape relu h1) as [Hrr Hrc].
    pose proof (tmap_wf relu Hw1) as Hrw.
    rewrite Hsk.
    replace (j + S k) with (S j + k) by lia.
    destruct (in_skips (skips cfg) j) eqn:Hs.
    + destruct (@cat_shape p (tmap relu h1)) as [c [Hcat [Hcr [Hcc Hcw]]]];
        [congruence |].
      rewrite Hcat. cbn [bind]. apply IH.
      * apply Hcw; assumption.
      * congruence.
      * rewrite Hcc, Hrc, Hc1, Hout, Hpc. cbn [pts_in_width]. rewrite Hs. lia.
    + cbn [bind]. apply IH.
      * exact Hrw.
      * congruence.
      * rewrite Hrc, Hc1, Hout. cbn [pts_in_width]. rewrite Hs. reflexivity.
Qed.

Lemma nerf_after_points (ge : get_embedder_t) (cfg : Config) (th : params)
  (p : tensor) (B : nat) :
  wf_tensor p -> nrows p = B -> ncols p = input_ch_of ge cfg ->
  exists h,
    run_pts (NeRF_init ge cfg th) p 0
            (pts_linears (NeRF_init ge cfg th)) p = Ok h
    /\ wf_tensor h /\ nrows h = B
    /\ ncols h = (if in_skips (skips cfg) (last_pts cfg)
                  then W cfg + input_ch_of ge cfg else W cfg).
Proof.
  intros Hp Hr Hc. rewrite pts_linears_eq.
  destruct (@run_pts_shape ge cfg th (NeRF_init ge cfg th) p B eq_refl
              Hp Hr Hc (S (last_pts cfg)) 0 p Hp Hr Hc)
    as [h [Hh [Hw [Hhr Hhc]]]].
  exists h. repeat split; assumption.
Qed.

Lemma nerf_forward_shapes_gen (ge : get_embedder_t) (cfg : Config)
  (th : params) (input_pts input_views : tensor) (B : nat) :
  use_viewdirs cfg = true ->
  in_skips (skips cfg) (last_pts cfg) = false ->
  let net := NeRF_init ge cfg th in
  let p := match embed_fn net with
           | Some e => e input_pts | None => input_pts end in
  let v := match embed_fn_view net with
           | Some e => e input_views | None => input_views end in
  wf_tensor p -> nrows p = B -> ncols p = input_ch_of ge cfg ->
  wf_tensor v -> nrows v = B -> ncols v = input_ch_view_of ge cfg ->
  exists alpha rgb,
    forward net input_pts input_views = Ok (alpha, rgb)
    /\ wf_tensor alpha /\ shape alpha = (B, 1)
    /\ wf_tensor rgb /\ shape rgb = (B, 3).
Proof.
  intros Hu Hlast net p v Hp Hpr Hpc Hv Hvr Hvc.
  destruct (@nerf_after_points ge cfg th p B Hp Hpr Hpc)
    as [h [Hh [Hw [Hhr Hhc]]]].
  rewrite Hlast in Hhc. fold net in Hh.
  set (n := Z.to_nat (D cfg - 1)).
  assert (Huse : self_use_viewdirs net = true) by exact Hu.
  assert (Hal : alpha_linear net = Some (Linear_of th false (n + 3) (W cfg) 1)).
  { unfold net, NeRF_init. cbn [alpha_linear]. rewrite Hu. reflexivity. }
  assert (Hfl : feature_linear net
                = Some (Linear_of th false (n + 2) (W cfg) (W cfg))).
  { unfold net, NeRF_init. cbn [feature_linear]. rewrite Hu. reflexivity. }
  assert (Hrl : rgb_linear net
                = Some (Linear_of th false (n + 4) (W cfg / 2) 3)).
  { unfold net, NeRF_init. cbn [rgb_linear]. rewrite Hu. reflexivity. }
  assert (Hvl : views_linears net
                = [Linear_of th false (S n)
                             (input_ch_view_of ge cfg + W cfg) (W cfg / 2)]).
  { unfold net, NeRF_init, input_ch_view_of. cbn [views_linears].
    destruct (0 <? multires_view cfg)%Z; reflexivity. }
  unfold forward. fold p v. rewrite Hh. cbn [bind].
  rewrite Huse, Hal, Hfl, Hrl, Hvl. cbn [attr bind].
  destruct (Linear_of_wf th false (n + 3) (W cfg) 1) as [Hawf [Hain Haout]].
  destruct (@Linear_forward_shape _ h Hawf) as [alpha [Ha [Har [Hac Haw]]]];
    [congruence |].
  rewrite Ha. cbn [bind].
  destruct (Linear_of_wf th false (n + 2) (W cfg) (W cfg)) as [Hfwf [Hfin Hfout]].
  destruct (@Linear_forward_shape _ h Hfwf) as [feat [Hf [Hfr [Hfc Hfw]]]];
    [congruence |].
  rewrite Hf. cbn [bind].
  destruct (@cat_shape feat v) as [c [Hc [Hcr [Hcc Hcw]]]]; [congruence |].
  rewrite Hc. cbn [bind run_views].
  destruct (Linear_of_wf th false (S n) (input_ch_view_of ge cfg + W cfg)
              (W cfg / 2)) as [Hvwf [Hvin Hvout]].
  destruct (@Linear_forward_shape _ c Hvwf) as [h2 [Hh2 [Hr2 [Hc2 Hw2]]]];
    [rewrite Hvin, Hcc, Hfc, Hfout, Hvc; lia |].
  rewrite Hh2. cbn [bind].
  destruct (tmap_shape relu h2) as [Hrr Hrc].
  destruct (Linear_of_wf th false (n + 4) (W cfg / 2) 3)
    as [Hgwf [Hgin Hgout]].
  destruct (@Linear_forward_shape _ (tmap relu h2) Hgwf)
    as [rgb [Hrgb [Hgr [Hgc Hgw]]]]; [congruence |].
  rewrite Hrgb. cbn [bind].
  exists alpha, rgb. split; [reflexivity |].
  split; [exact Haw |]. split; [unfold shape; f_equal; congruence |].
  split; [exact Hgw |]. unfold shape; f_equal; congruence.
Qed.

(** X15. With view-direction conditioning and no skip at the last point
    layer, [forward] on well-shaped points and view directions returns
    a density of shape [B, 1] and a colour of shape [B, 3]. *)
Theorem nerf_forward_shapes (ge : get_embedder_t) (cfg : Config)
  (th : params) (input_pts input_views : tensor) (B : nat) :
  use_viewdirs cfg = true ->
  in_skips (skips cfg) (last_pts cfg) = false ->
  let net := NeRF_init ge cfg th in
  let p := match embed_fn net with
           | Some e => e input_pts | None => input_pts end in
  let v := match embed_fn_view net with
           | Some e => e input_views | None => input_views end in
  wf_tensor p -> nrows p = B -> ncols p = input_ch_of ge cfg ->
  wf_tensor v -> nrows v = B -> ncols v = input_ch_view_of ge cfg ->
  exists alpha rgb,
    forward net input_pts input_views = Ok (alpha, rgb)
    /\ wf_tensor alpha /\ shape alpha = (B, 1)
    /\ wf_tensor rgb /\ shape rgb = (B, 3).
Proof.
  intros Hu Hlast net p v Hp Hpr Hpc Hv Hvr Hvc.
  apply nerf_forward_shapes_gen; assumption.
Qed.

Lemma nerf_forward_shapes_witness :
  exists alpha rgb,
    forward (NeRF_init Samples.id_embedder Samples.nerf_views
                       Samples.unit_params)
            Samples.row3 Samples.row3 = Ok (alpha, rgb)
    /\ shape alpha = (1, 1) /\ shape rgb = (1, 3).
Proof.
  destruct (@nerf_forward_shapes Samples.id_embedder Samples.nerf_views
              Samples.unit_params Samples.row3 Samples.row3 1
              eq_refl eq_refl)
    as [alpha [rgb [Hf [_ [Ha [_ Hr]]]]]].
  - repeat constructor.
  - reflexivity.
  - reflexivity.
  - repeat constructor.
  - reflexivity.
  - reflexivity.
  - exists alpha, rgb. split; [exact Hf |]. split; [exact Ha | exact Hr].
Defined.

(** X16. With view-direction conditioning and a skip index at the last point
    layer, the re-concatenated points widen the tensor the heads
    receive and [forward] raises at the density head. *)
Theorem nerf_skip_at_last_layer (ge : get_embedder_t) (cfg : Config)
  (th : params) (input_pts input_views : tensor) (B : nat) :
  use_viewdirs cfg = true ->
  in_skips (skips cfg) (last_pts cfg) = true ->
  0 < input_ch_of ge cfg ->
  let net := NeRF_init ge cfg th in
  let p := match embed_fn net with
           | Some e => e input_pts | None => input_pts end in
  wf_tensor p -> nrows p = B -> ncols p = input_ch_of ge cfg ->
  forward net input_pts input_views = Raise RuntimeError.
Proof.
  intros Hu Hlast Hic net p Hp Hpr Hpc.
  destruct (@nerf_after_points ge cfg th p B Hp Hpr Hpc)
    as [h [Hh [Hw [Hhr Hhc]]]].
  rewrite Hlast in Hhc. fold net in Hh.
  set (n := Z.to_nat (D cfg - 1)).
  assert (Huse : self_use_viewdirs net = true) by exact Hu.
  assert (Hal : alpha_linear net = Some (Linear_of th false (n + 3) (W cfg) 1)).
  { unfold net, NeRF_init. cbn [alpha_linear]. rewrite Hu. reflexivity. }
  unfold forward. fold p. rewrite Hh. cbn [bind].
  rewrite Huse, Hal. cbn [attr bind].
  unfold Linear_forward.
  destruct (Linear_of_wf th false (n + 3) (W cfg) 1) as [_ [Hain _]].
  rewrite Hain, Hhc.
  destruct (Nat.eqb_spec (W cfg + input_ch_of ge cfg) (W cfg));
    [lia | reflexivity].
Qed.

Lemma nerf_skip_at_last_layer_witness :
  forward (NeRF_init Samples.id_embedder Samples.nerf_views_last_skip
                     Samples.unit_params)
          Samples.row3 Samples.row3 = Raise RuntimeError.
Proof.
  apply (@nerf_skip_at_last_layer Samples.id_embedder
           Samples.nerf_views_last_skip Samples.unit_params
           Samples.row3 Samples.row3 1 eq_refl eq_refl).
  - unfold input_ch_of. simpl. lia.
  - repeat constructor.
  - reflexivity.
  - reflexivity.
Defined.

(** X17. The density returned by [forward] does not depend on the view
    directions: two calls on the same points that both return give the
    same density. *)
Theorem nerf_alpha_ignores_views (net : NeRF) (input_pts v1 v2 : tensor)
  (a1 r1 a2 r2 : tensor) :
  forward net input_pts v1 = Ok (a1, r1) ->
  forward net input_pts v2 = Ok (a2, r2) ->
  a1 = a2.
Proof.
  unfold forward.
  destruct (run_pts net _ 0 (pts_linears net) _) as [h|e]; cbn [bind];
    [| discriminate].
  destruct (self_use_viewdirs net); [| discriminate].
  destruct (attr (alpha_linear net)) as [al|e]; cbn [bind]; [| discriminate].
  destruct (Linear_forward al h) as [alpha|e]; cbn [bind]; [| discriminate].
  destruct (attr (feature_linear net)) as [fl|e]; cbn [bind];
    [| discriminate].
  destruct (Linear_forward fl h) as [feat|e]; cbn [bind]; [| discriminate].
  intros H1 H2.
  destruct (cat feat _) as [c1|e] in H1; cbn [bind] in H1; [| discriminate].
  destruct (run_views (views_linears net) c1) as [h1|e]; cbn [bind] in H1;
    [| discriminate].
  destruct (attr (rgb_linear net)) as [rl|e]; cbn [bind] in H1, H2;
    [| discriminate].
  destruct (Linear_forward rl h1) as [g1|e]; cbn [bind] in H1;
    [| discriminate].
  destruct (cat feat _) as [c2|e] in H2; cbn [bind] in H2; [| discriminate].
  destruct (run_views (views_linears net) c2) as [h2|e]; cbn [bind] in H2;
    [| discriminate].
  destruct (Linear_forward rl h2) as [g2|e]; cbn [bind] in H2;
    [| discriminate].
  inversion H1. inversion H2. congruence.
Qed.

Lemma nerf_alpha_ignores_views_witness :
  exists a1 r1 a2 r2,
    forward (NeRF_init Samples.id_embedder Samples.nerf_views
                       Samples.unit_params)
            Samples.row3 Samples.row3 = Ok (a1, r1)
    /\ forward (NeRF_init Samples.id_embedder Samples.nerf_views
                          Samples.unit_params)
               Samples.row3 (mkT 3 [[1; 2; 3]%R]) = Ok (a2, r2)
    /\ a1 = a2.
Proof.
  destruct (@nerf_forward_shapes_gen Samples.id_embedder Samples.nerf_views
              Samples.unit_params Samples.row3 Samples.row3 1
              eq_refl eq_refl) as [a1 [r1 [H1 _]]];
    [repeat constructor | reflexivity | reflexivity
     | repeat constructor | reflexivity | reflexivity |].
  destruct (@nerf_forward_shapes_gen Samples.id_embedder Samples.nerf_views
              Samples.unit_params Samples.row3 (mkT 3 [[1; 2; 3]%R]) 1
              eq_refl eq_refl) as [a2 [r2 [H2 _]]];
    [repeat constructor | reflexivity | reflexivity
     | repeat constructor | reflexivity | reflexivity |].
  exists a1, r1, a2, r2. split; [exact H1 |]. split; [exact H2 |].
  exact (@nerf_alpha_ignores_views _ _ _ _ _ _ _ _ H1 H2).
Defined.

End NeRFMore.

(** ** The SDF network right after construction *)

Section SDFAtInit.
Import Torch SDF SDFExt.

Lemma dot_all_zero (r w : list R) :
  (forall c, nth c w 0%R = 0%R) -> dot r w = 0%R.
Proof.
  unfold dot. revert w; induction r as [|a r IH]; intros w Hw.
  - destruct w; reflexivity.
  - destruct w as [|x w]; [reflexivity |]. simpl.
    rewrite (IH w) by (intros c; exact (Hw (S c))).
    pose proof (Hw 0) as H0. simpl in H0. rewrite H0. ring.
Qed.

(** A weight row that is zero from column [n] on only sees the first [n]
    entries of the input row. *)
Lemma dot_zero_tail (n : nat) :
  forall r w, (forall c, n <= c -> nth c w 0%R = 0%R) ->
              dot r w = dot (firstn n r) w.
Proof.
  induction n as [|n IH]; intros r w Hw.
  - rewrite (@dot_all_zero r w) by (intros c; apply Hw; lia).
    simpl. destruct w; reflexivity.
  - destruct r as [|a r]; [reflexivity |].
    destruct w as [|x w]; [reflexivity |].
    unfold dot in *. simpl. f_equal. apply IH.
    intros c Hc. exact (Hw (S c) ltac:(lia)).
Qed.

Lemma affine_row_firstn (n : nat) (W : list (list R)) (b r1 r2 : list R) :
  (forall wi, In wi W -> forall c, n <= c -> nth c wi 0%R = 0%R) ->
  firstn n r1 = firstn n r2 ->
  affine_row W b r1 = affine_row W b r2.
Proof.
  intros HW Hr. unfold affine_row. f_equal. apply map_ext_in.
  intros wi Hwi. rewrite (@dot_zero_tail n r1 wi (HW wi Hwi)).
  rewrite (@dot_zero_tail n r2 wi (HW wi Hwi)). rewrite Hr. reflexivity.
Qed.

Lemma nth_tabulate_zero (f : nat -> R) (i c : nat) :
  (c < i -> f c = 0%R) -> nth c (tabulate f i) 0%R = 0%R.
Proof.
  intros H. unfold tabulate.
  destruct (Nat.lt_ge_cases c i) as [Hlt|Hge].
  - rewrite (nth_indep _ 0%R (f 0)) by (rewrite length_map, length_seq; lia).
    rewrite map_nth, seq_nth by exact Hlt. simpl. apply H. exact Hlt.
  - apply nth_overflow. rewrite length_map, length_seq. exact Hge.
Qed.

(** The weight a layer computes with is zero wherever the stored
    parameters are, with or without weight normalisation. *)
Lemma effective_weight_zero_cols (th : params) (wn : bool) (l i o n : nat) :
  (forall r c, r < o -> n <= c -> c < i -> p_weight th l r c = 0%R) ->
  forall wi, In wi (effective_weight (Linear_of th wn l i o)) ->
             forall c, n <= c -> nth c wi 0%R = 0%R.
Proof.
  intros Hz.
  assert (Hrows : forall wi,
             In wi (tabulate (fun r => tabulate (fun c => p_weight th l r c) i) o)
             -> forall c, n <= c -> nth c wi 0%R = 0%R).
  { intros wi Hin c Hc. unfold tabulate in Hin at 1.
    apply in_map_iff in Hin. destruct Hin as [r [Hr Hin]]. subst wi.
    apply in_seq in Hin. apply nth_tabulate_zero. intros Hci.
    apply Hz; lia. }
  intros wi Hin c Hc. unfold effective_weight, Linear_of in Hin. simpl in Hin.
  destruct wn.
  - apply in_map_iff in Hin. destruct Hin as [[g0 w0] [Hw Hin]]. subst wi.
    apply in_combine_r in Hin. simpl.
    set (h := fun a : R => (a * (g0 / norm2 w0))%R).
    replace 0%R with (h 0%R) at 1 by (unfold h; ring).
    rewrite map_nth. rewrite (Hrows w0 Hin c Hc). unfold h. ring.
  - apply Hrows; assumption.
Qed.

Lemma Forall2_zip_app_same_left (n : nat) (es fs1 fs2 : list (list R)) :
  Forall (fun r => n <= length r) es ->
  length fs1 = length es -> length fs2 = length es ->
  Forall2 (fun r1 r2 => firstn n r1 = firstn n r2 /\ n <= length r1
                        /\ n <= length r2)
          (zip_app es fs1) (zip_app es fs2).
Proof.
  intros He; revert fs1 fs2; induction He as [|e es Hel He IH];
    intros fs1 fs2 H1 H2.
  - constructor.
  - destruct fs1 as [|f1 fs1]; [discriminate |].
    destruct fs2 as [|f2 fs2]; [discriminate |].
    simpl. constructor.
    + rewrite !firstn_app, !length_app.
      replace (n - length e) with 0 by lia.
      split; [reflexivity | lia].
    + apply IH; simpl in *; lia.
Qed.

Lemma Forall2_zip_app_same_right (n : nat) (xs1 xs2 es : list (list R)) :
  Forall2 (fun r1 r2 => firstn n r1 = firstn n r2 /\ n <= length r1
                        /\ n <= length r2) xs1 xs2 ->
  Forall2 (fun r1 r2 => firstn n r1 = firstn n r2)
          (zip_app xs1 es) (zip_app xs2 es).
Proof.
  intros H; revert es; induction H as [|x1 x2 xs1 xs2 [Hx [H1 H2]] Hxs IH];
    intros es.
  - constructor.
  - destruct es as [|e es]; simpl; constructor.
    + rewrite !firstn_app.
      replace (n - length x1) with 0 by lia.
      replace (n - length x2) with 0 by lia.
      simpl. rewrite !app_nil_r. exact Hx.
    + apply IH.
Qed.

Lemma bind_congr {A B C : Type} (m1 m2 : result A) (g : A -> result B)
  (k : B -> result C) :
  (x <- m1 ;; g x) = (x <- m2 ;; g x) ->
  (x <- m1 ;; y <- g x ;; k y) = (x <- m2 ;; y <- g x ;; k y).
Proof.
  destruct m1 as [a|e1], m2 as [b|e2]; simpl; intros H.
  - rewrite H. reflexivity.
  - rewrite H. reflexivity.
  - rewrite <- H. reflexivity.
  - inversion H. reflexivity.
Qed.

Lemma Forall2_map_eq {A B : Type} (P : A -> A -> Prop) (g : A -> B)
  (l1 l2 : list A) :
  (forall a1 a2, P a1 a2 -> g a1 = g a2) ->
  Forall2 P l1 l2 -> map g l1 = map g l2.
Proof.
  intros Hg H. induction H as [|a1 a2 l1 l2 Ha Hl IH]; simpl.
  - reflexivity.
  - rewrite (Hg _ _ Ha), IH. reflexivity.
Qed.

(** X10. Right after construction with geometric initialisation and an
    embedding of width at least 3, the features do not influence the
    network: the first layer has zero weights on every column but the
    first three, so [forward] returns the same result for any two
    feature arguments of the right shape, given or absent. *)
Theorem features_ignored_at_init (ge : get_embedder_t) (cfg : Config)
  (ini : SDFInit) (th : params) (x : tensor) (f1 f2 : option tensor) :
  SDFNetwork_init ge cfg = Ok ini ->
  geometric_init cfg = true -> (0 < multires cfg)%Z ->
  holds_constants th ini ->
  embeds (embed (the_embedder ge cfg)) (d_in cfg)
         (input_ch (the_embedder ge cfg)) ->
  3 <= input_ch (the_embedder ge cfg) ->
  wf_tensor x -> ncols x = d_in cfg ->
  scale_fits (scale cfg) (d_in cfg) ->
  features_fit f1 (nrows x) (feature_dim cfg) ->
  features_fit f2 (nrows x) (feature_dim cfg) ->
  forward (load th ini) x f1 = forward (load th ini) x f2.
Proof.
  intros Hok Hg Hm Hhold Hemb HE3 Hx Hxc Hsc Hf1 Hf2.
  destruct (SDFNetwork_init_inv _ _ Hok) as [Hv [Ha Hl]].
  pose proof (valid_skip_depth Hv) as Hn.
  set (E := input_ch (the_embedder ge cfg)) in *.
  set (emb := embed (the_embedder ge cfg)) in *.
  destruct (built_layers_cons ge cfg) as [rest Hcons]. fold E in Hcons.
  set (lin0 := build_layer cfg E (make_dims E cfg) 0) in *.
  (* the parameters of layer 0 are zero from column 3 on *)
  assert (Hzero : forall r c, r < out_dim lin0 -> 3 <= c -> c < in_dim lin0 ->
                              p_weight th 0 r c = 0%R).
  { intros r c Hr H3 Hc. apply (Hhold 0 lin0 r c 0%R).
    - rewrite Hl, Hcons. reflexivity.
    - assert (H0 : (0 =? length (make_dims E cfg) - 2) = false).
      { apply Nat.eqb_neq. rewrite length_make_dims. lia. }
      destruct (@build_layer_first cfg E (make_dims E cfg) r c Hg Hm H0 Hr Hc)
        as [_ Hw].
      fold lin0 in Hw. rewrite Hw.
      destruct (Nat.leb_spec 3 c); [reflexivity | lia]. }
  pose proof (@effective_weight_zero_cols th (wn lin0) 0 (in_dim lin0)
                (out_dim lin0) 3 Hzero) as HW.
  unfold forward, load. rewrite Ha, Hl, Hcons. simpl.
  destruct (@broadcast_fits Rmult x (scale cfg) Hx) as [inputs [Hmul [Hic [Hir Hiw]]]];
    [rewrite Hxc; exact Hsc |].
  unfold tmul. rewrite Hmul. simpl.
  destruct (Hemb inputs Hiw) as [Hew [Hec Her]]; [congruence |].
  fold emb in Hew, Hec, Her |- *. fold lin0.
  (* the two feature slots *)
  assert (Hslot : forall f,
             features_fit f (nrows x) (feature_dim cfg) ->
             exists F,
               match f with
               | Some t => cat (emb inputs) t
               | None => cat (emb inputs)
                             (zeros (nrows inputs) (feature_dim cfg))
               end
               = Ok (mkT (E + feature_dim cfg)
                         (zip_app (trows (emb inputs)) F))
               /\ length F = length (trows (emb inputs))).
  { intros f Hf. destruct f as [t|]; simpl in Hf.
    - destruct Hf as [_ [Htr Htc]]. exists (trows t). unfold cat.
      replace (nrows t) with (nrows (emb inputs)) by congruence.
      rewrite Nat.eqb_refl, Hec, Htc. split; [reflexivity |].
      fold (nrows t) (nrows (emb inputs)). congruence.
    - exists (trows (zeros (nrows inputs) (feature_dim cfg))).
      destruct (zeros_shape (nrows inputs) (feature_dim cfg)) as [Hzr [Hzc _]].
      unfold cat. rewrite Hzr, Hzc.
      replace (nrows inputs) with (nrows (emb inputs)) by congruence.
      rewrite Nat.eqb_refl, Hec. split; [reflexivity |].
      fold (nrows (zeros (nrows (emb inputs)) (feature_dim cfg))).
      rewrite (proj1 (zeros_shape _ _)). reflexivity. }
  destruct (Hslot f1 Hf1) as [F1 [Hc1 HF1]].
  destruct (Hslot f2 Hf2) as [F2 [Hc2 HF2]].
  rewrite Hc1, Hc2. cbn [bind].
  assert (Hlen3 : Forall (fun r => 3 <= length r) (trows (emb inputs))).
  { eapply Forall_impl; [| exact Hew]. simpl. intros r Hr. rewrite Hr, Hec.
    exact HE3. }
  pose proof (Forall2_zip_app_same_left F1 F2 Hlen3 HF1 HF2) as HP.
  set (L0 := Linear_of th (wn lin0) 0 (in_dim lin0) (out_dim lin0)) in *.
  set (X1 := mkT (E + feature_dim cfg) (zip_app (trows (emb inputs)) F1)).
  set (X2 := mkT (E + feature_dim cfg) (zip_app (trows (emb inputs)) F2)).
  match goal with
  | |- bind ?m1 ?k = bind ?m2 _ => replace m1 with m2; [reflexivity |]
  end.
  apply bind_congr.
  destruct (is_skip (skip_in cfg) 0).
  - assert (Hcat : forall F,
               length F = length (trows (emb inputs)) ->
               cat (mkT (E + feature_dim cfg) (zip_app (trows (emb inputs)) F))
                   (emb inputs)
               = Ok (mkT (E + feature_dim cfg + ncols (emb inputs))
                         (zip_app (zip_app (trows (emb inputs)) F)
                                  (trows (emb inputs))))).
    { intros F HF. unfold cat, nrows. simpl.
      rewrite length_zip_app, HF, Nat.min_id, Nat.eqb_refl. reflexivity. }
    unfold X1, X2. rewrite (Hcat F1 HF1), (Hcat F2 HF2). cbn [bind].
    unfold Linear_forward. simpl ncols.
    destruct (E + feature_dim cfg + ncols (emb inputs) =? in_features L0);
      [| reflexivity].
    f_equal. f_equal. simpl trows. rewrite !map_map.
    apply (@Forall2_map_eq _ _ (fun r1 r2 => firstn 3 r1 = firstn 3 r2)).
    + intros r1 r2 Hr. apply (@affine_row_firstn 3); [exact HW |].
      rewrite !firstn_map, Hr. reflexivity.
    + apply Forall2_zip_app_same_right.
      apply Forall2_flip. eapply Forall2_impl; [| exact HP].
      simpl. intros r1 r2 [Hr [H1 H2]]. repeat split; auto.
  - cbn [bind]. unfold Linear_forward, X1, X2. simpl ncols.
    destruct (E + feature_dim cfg =? in_features L0); [| reflexivity].
    f_equal. f_equal. simpl trows.
    apply (@Forall2_map_eq _ _
             (fun r1 r2 => firstn 3 r1 = firstn 3 r2 /\ 3 <= length r1
                           /\ 3 <= length r2)).
    + intros r1 r2 [Hr _]. apply (@affine_row_firstn 3); [exact HW | exact Hr].
    + apply Forall2_flip. eapply Forall2_impl; [| exact HP].
      simpl. intros r1 r2 [Hr [H1 H2]]. repeat split; auto.
Qed.

Lemma entry_of_fill_cols_cases (sel : nat -> bool) (e v : init_entry)
  (w : list (list init_entry)) (r c : nat) :
  entry_of (fill_cols sel e w) r c = Some v ->
  v = e \/ entry_of w r c = Some v.
Proof.
  rewrite entry_of_fill_cols.
  destruct (entry_of w r c) as [old|]; simpl; [| discriminate].
  destruct (sel c); intros H; inversion H; subst; auto.
Qed.

Lemma entry_of_default_only (i o r c : nat) (v : init_entry) :
  entry_of (repeat (repeat Default i) o) r c = Some v -> v = Default.
Proof.
  unfold entry_of.
  destruct (nth_error (repeat (repeat Default i) o) r) as [row|] eqn:Hr;
    [| discriminate].
  apply nth_error_In, repeat_spec in Hr. subst row.
  intros H. apply nth_error_In, repeat_spec in H. exact H.
Qed.

(** The only constant the constructor writes into a weight is 0. *)
Lemma build_layer_weight_constant (cfg : Config) (E : nat) (dims : list nat)
  (l r c : nat) (x : R) :
  weight_entry (build_layer cfg E dims l) r c = Some (Constant x) -> x = 0%R.
Proof.
  unfold build_layer, weight_entry.
  destruct (geometric_init cfg), (l =? length dims - 2), (inside_outside cfg),
    (0 <? multires cfg)%Z, (l =? 0), (is_skip (skip_in cfg) l), (3 <? E),
    (weight_norm cfg); simpl; intros H;
    repeat match goal with
           | H : entry_of (fill_cols _ _ _) _ _ = Some _ |- _ =>
               apply entry_of_fill_cols_cases in H;
               destruct H as [H|H];
               [first [discriminate H | inversion H; reflexivity] |]
           end;
    apply entry_of_default_only in H; discriminate H.
Qed.

Lemma zero_weights_hold_constants (ge : get_embedder_t) (cfg : Config)
  (ini : SDFInit) (th : params) :
  SDFNetwork_init ge cfg = Ok ini ->
  (forall l r c, p_weight th l r c = 0%R) ->
  holds_constants th ini.
Proof.
  intros Hok Hz l lin r c x Hnth Hw.
  destruct (built_layer_inv _ _ _ Hok Hnth) as [_ [_ [Hlin _]]].
  rewrite Hlin in Hw. apply build_layer_weight_constant in Hw.
  rewrite Hz. symmetry. exact Hw.
Qed.

Lemma features_ignored_at_init_witness :
  forward (load Samples.unit_params
             (built Samples.band_embedder Samples.sdf_cfg_emb))
          Samples.origin None
  = forward (load Samples.unit_params
               (built Samples.band_embedder Samples.sdf_cfg_emb))
            Samples.origin (Some (mkT 5 [[1; 2; 3; 4; 5]%R])).
Proof.
  apply (@features_ignored_at_init Samples.band_embedder Samples.sdf_cfg_emb
           (built Samples.band_embedder Samples.sdf_cfg_emb)
           Samples.unit_params Samples.origin None
           (Some (mkT 5 [[1; 2; 3; 4; 5]%R]))).
  - apply SDFNetwork_init_ok. reflexivity.
  - reflexivity.
  - reflexivity.
  - apply (@zero_weights_hold_constants Samples.band_embedder
             Samples.sdf_cfg_emb).
    + apply SDFNetwork_init_ok. reflexivity.
    + intros l r c. reflexivity.
  - intros t Ht Hc. unfold wf_tensor, nrows. simpl.
    rewrite length_map. split; [| split; [rewrite Hc; reflexivity | reflexivity]].
    rewrite Forall_map. eapply Forall_impl; [| exact Ht]. simpl.
    intros r Hr. rewrite !length_app, !length_map, Hr. lia.
  - simpl. lia.
  - repeat constructor.
  - reflexivity.
  - simpl. left. reflexivity.
  - exact I.
  - simpl. split; [repeat constructor | split; reflexivity].
Defined.

End SDFAtInit.
